(** * Blog API: token, session, ownership and media-cleanup handlers

    A shallow embedding of the request handlers of [backend/app]
    ([app.py], [posts.py], [comments.py], [utils.py], [auth_backend.py]).
    Handlers are written in state-passing style: every handler takes the
    stores it reads and returns its response together with the stores it
    leaves behind and the trace of the external calls it made.  Raised
    exceptions are values of [PyExc]; a handler that lets one escape
    returns [Raise e]. *)

From Stdlib Require Import ZArith String List Bool Lia.
From stdpp Require Import base option strings gmap list.

Local Open Scope Z_scope.
Local Open Scope string_scope.

(** ** Python values shared by the handlers *)

Module Py.

(** The exception classes the handlers raise or catch.  The first group are
    PyJWT's; all of them derive from [jwt.InvalidTokenError], and
    [ExpiredSignatureError] is the one the verification handler singles
    out.  [HTTPException] is FastAPI's; [IntegrityError] and [DBAPIError]
    are SQLAlchemy's. *)
Inductive PyExc : Type :=
| ExpiredSignatureError
| InvalidSignatureError
| DecodeError
| InvalidAudienceError
| MissingRequiredClaimError (claim : string)
| ImmatureSignatureError
| InvalidTokenError
| HTTPException (status_code : Z) (detail : string)
| ValueError (msg : string)
| AttributeError (msg : string)
| IntegrityError (msg : string)
| RuntimeError (msg : string)
| DBAPIError (msg : string).

(** [isinstance(e, jwt.ExpiredSignatureError)] *)
Definition is_ExpiredSignatureError (e : PyExc) : bool :=
  match e with
  | ExpiredSignatureError => true
  | _ => false
  end.

(** [isinstance(e, jwt.InvalidTokenError)]: the base class and every
    subclass, [ExpiredSignatureError] included. *)
Definition is_InvalidTokenError (e : PyExc) : bool :=
  match e with
  | ExpiredSignatureError | InvalidSignatureError | DecodeError
  | InvalidAudienceError | MissingRequiredClaimError _
  | ImmatureSignatureError | InvalidTokenError => true
  | _ => false
  end.

(** Outcome of a call that may raise. *)
Inductive Result (A : Type) : Type :=
| Ok (a : A)
| Raise (e : PyExc).
Arguments Ok {A} a.
Arguments Raise {A} e.

Definition bind {A B} (r : Result A) (k : A -> Result B) : Result B :=
  match r with
  | Ok a => k a
  | Raise e => Raise e
  end.

(** Truth value of a [str]: the empty string is falsy. *)
Definition truthy_str (s : string) : bool :=
  if decide (s = "") then false else true.

(** Truth value of a [str | None]. *)
Definition truthy (o : option string) : bool :=
  match o with
  | None => false
  | Some s => truthy_str s
  end.

(** [a != b] on [str | None] values. *)
Definition neq_opt (a b : option string) : bool :=
  if decide (a = b) then false else true.

(** [s.startswith(p)] *)
Definition startswith (s p : string) : bool := String.prefix p s.

End Py.
Import Py.

(** ** utils.py: best-effort deletion from the media store *)

Module Utils.

(** [Settings], the one field the cleanup reads. *)
Record Settings : Type := { IMAGEKIT_URL_ENDPOINT : string }.

(** Calls that reach the media store. *)
Inductive MediaCall : Type :=
| ListFiles (path : string)
| DeleteFile (file_id : string).

(** Lines written to the logger by [delete_file_from_imagekit]. *)
Inductive LogLine : Type :=
| WarnNoUrlOrClient
| WarnNotImageKitUrl (file_url : string)
| InfoFindPath (path : string)
| InfoFound (file_id : string)
| SuccessDeleted (file_id : string)
| WarnNotFound (path : string)
| ErrorDeleting (file_url : string) (e : PyExc).

Section Client.

(** State of the remote media store. *)
Variable MediaStore : Type.

(** The ImageKit client: [list_files] returns the file ids of the matches,
    [delete_file] removes one file; either may raise. *)
Record ImageKit : Type := {
  list_files : string -> MediaStore -> Result (list string);
  delete_file : string -> MediaStore -> Result unit * MediaStore
}.

(** [urlparse(file_url).path]; [urlparse] raises [ValueError] on some inputs. *)
Variable urlparse_path : string -> Result string.

(** What one run of the routine leaves behind. *)
Record Effects : Type := {
  returned : Result unit;
  calls : list MediaCall;
  logs : list LogLine;
  store : MediaStore
}.

(** Body of the [try] block of [delete_file_from_imagekit]: the value is
    the block's own result, before the [except Exception] clause. *)
Definition delete_try (ik : ImageKit) (file_url : string) (ms : MediaStore)
  : Result unit * list MediaCall * list LogLine * MediaStore :=
  match urlparse_path file_url with
  | Raise e => (Raise e, [], [], ms)
  | Ok path =>
      match list_files ik path ms with
      | Raise e => (Raise e, [ListFiles path], [InfoFindPath path], ms)
      | Ok [] =>
          (Ok tt, [ListFiles path], [InfoFindPath path; WarnNotFound path], ms)
      | Ok (file_id :: _) =>
          match delete_file ik file_id ms with
          | (Raise e, ms') =>
              (Raise e, [ListFiles path; DeleteFile file_id],
               [InfoFindPath path; InfoFound file_id], ms')
          | (Ok _, ms') =>
              (Ok tt, [ListFiles path; DeleteFile file_id],
               [InfoFindPath path; InfoFound file_id; SuccessDeleted file_id],
               ms')
          end
      end
  end.

Definition delete_file_from_imagekit (settings : Settings)
    (imagekit : option ImageKit) (file_url : string) (ms : MediaStore)
  : Effects :=
  match truthy_str file_url, imagekit with
  | false, _ | _, None =>
      {| returned := Ok tt; calls := []; logs := [WarnNoUrlOrClient];
         store := ms |}
  | true, Some ik =>
      if negb (startswith file_url (IMAGEKIT_URL_ENDPOINT settings)) then
        {| returned := Ok tt; calls := [];
           logs := [WarnNotImageKitUrl file_url]; store := ms |}
      else
        match delete_try ik file_url ms with
        | (Ok _, cs, ls, ms') =>
            {| returned := Ok tt; calls := cs; logs := ls; store := ms' |}
        | (Raise e, cs, ls, ms') =>
            {| returned := Ok tt; calls := cs;
               logs := ls ++ [ErrorDeleting file_url e]; store := ms' |}
        end
  end.

(** [asyncio.gather] over [delete_tasks]: the coroutines contain no
    suspension point, so they run one after the other in list order. *)
Fixpoint gather (settings : Settings) (imagekit : option ImageKit)
    (urls : list string) (ms : MediaStore) : Effects :=
  match urls with
  | [] => {| returned := Ok tt; calls := []; logs := []; store := ms |}
  | u :: rest =>
      let e1 := delete_file_from_imagekit settings imagekit u ms in
      let e2 := gather settings imagekit rest (store e1) in
      {| returned := bind (returned e1) (fun _ => returned e2);
         calls := calls e1 ++ calls e2;
         logs := logs e1 ++ logs e2;
         store := store e2 |}
  end.

End Client.

Arguments list_files {MediaStore}.
Arguments delete_file {MediaStore}.
Arguments returned {MediaStore}.
Arguments calls {MediaStore}.
Arguments logs {MediaStore}.
Arguments store {MediaStore}.

End Utils.

(** ** models.py and schemas.py *)

Module Models.

(** [uuid.UUID], as its 128-bit integer value. *)
Definition UUID : Type := N.

(** [User]: the columns of [SQLAlchemyBaseUserTableUUID] and [full_name]. *)
Record User : Type := {
  id : UUID;
  email : string;
  hashed_password : string;
  is_active : bool;
  is_superuser : bool;
  is_verified : bool;
  full_name : option string
}.

(** [Post].  Attributes are what the mapped object can hold in memory:
    [title] is declared non-nullable, but that is enforced by the database
    when the row is flushed, not by [setattr].  The server-generated
    timestamps are not read by any handler and are left out. *)
Record Post : Type := {
  post_id : Z;
  title : option string;
  content : option string;
  image_url : option string;
  video_url : option string;
  post_owner_id : UUID
}.

(** [Comment] *)
Record Comment : Type := {
  comment_id : Z;
  comment_content : option string;
  comment_owner_id : UUID;
  comment_post_id : Z
}.

(** [PostUpdate]: every field is [str | None] with default [None]; the
    outer [option] records whether the request set the field, which is
    what [model_dump(exclude_unset=True)] keeps. *)
Record PostUpdate : Type := {
  upd_title : option (option string);
  upd_content : option (option string);
  upd_image_url : option (option string);
  upd_video_url : option (option string)
}.

(** [CommentUpdate] *)
Record CommentUpdate : Type := {
  upd_comment_content : option (option string)
}.

(** The relational store: rows by primary key. *)
Record DB : Type := {
  posts : gmap Z Post;
  comments : gmap Z Comment
}.

End Models.
Import Models.

(** ** posts.py and comments.py: owner-only mutation *)

Module Posts.
Import Utils.

(** The handlers as they run once the driver has taken the id of the
    path; [Ranged], further down, puts the driver's refusal in front. *)

Section Handlers.

Variable MediaStore : Type.
Variable urlparse_path : string -> Result string.
Variable settings : Settings.
Variable imagekit : option (ImageKit MediaStore).

(** Whether the database accepts the row at [commit] (non-null and length
    constraints of the table); a rejected row makes [commit] raise. *)
Variable post_accepted : Post -> bool.

(** What a handler leaves behind: its response, the relational store, the
    urls handed to [delete_file_from_imagekit] (in order), and what those
    runs did. *)
Record Outcome (A : Type) : Type := {
  response : Result A;
  db : DB;
  delete_tasks : list string;
  media : Effects MediaStore
}.
Arguments response {A}.
Arguments db {A}.
Arguments delete_tasks {A}.
Arguments media {A}.

Definition no_media (ms : MediaStore) : Effects MediaStore :=
  {| returned := Ok tt; calls := []; logs := []; store := ms |}.

(** Leaving the handler by [raise] before anything was written. *)
Definition abort {A} (e : PyExc) (d : DB) (ms : MediaStore) : Outcome A :=
  {| response := Raise e; db := d; delete_tasks := []; media := no_media ms |}.

(** The [setattr] loop over [update_data.items()]. *)
Definition apply_post_update (post : Post) (u : PostUpdate) : Post :=
  {| post_id := post_id post;
     title := default (title post) (upd_title u);
     content := default (content post) (upd_content u);
     image_url := default (image_url post) (upd_image_url u);
     video_url := default (video_url post) (upd_video_url u);
     post_owner_id := post_owner_id post |}.

(** [old if "field" in update_data else None] *)
Definition captured (present : option (option string)) (old : option string)
  : option string :=
  match present with
  | Some _ => old
  | None => None
  end.

(** [if old and old != new: delete_tasks.append(...(old))] *)
Definition changed_task (old new : option string) : list string :=
  if truthy old && neq_opt old new then option_list old else [].

(** [if url: delete_tasks.append(...(url))] *)
Definition present_task (url : option string) : list string :=
  if truthy url then option_list url else [].

Definition update_post (id : Z) (post_update : PostUpdate) (user : User)
    (d : DB) (ms : MediaStore) : Outcome Post :=
  match posts d !! id with
  | None => abort (HTTPException 404 "Post not found") d ms
  | Some post =>
      if negb (bool_decide (post_owner_id post = Models.id user)) then
        abort (HTTPException 403 "Not authorized to update this post") d ms
      else
        let old_image_url := captured (upd_image_url post_update) (image_url post) in
        let old_video_url := captured (upd_video_url post_update) (video_url post) in
        let post' := apply_post_update post post_update in
        if negb (post_accepted post') then
          abort (IntegrityError "commit") d ms
        else
          let d' := {| posts := <[id := post']> (posts d);
                       comments := comments d |} in
          let tasks := (changed_task old_image_url (image_url post')
                        ++ changed_task old_video_url (video_url post'))%list in
          let eff := gather MediaStore urlparse_path settings imagekit tasks ms in
          {| response := bind (returned eff) (fun _ => Ok post');
             db := d'; delete_tasks := tasks; media := eff |}
  end.

(** Deleting a post row takes its comments with it
    ([cascade="all, delete-orphan"] on [Post.comments]). *)
Definition delete_post_row (id : Z) (d : DB) : DB :=
  {| posts := delete id (posts d);
     comments := filter (fun kv => comment_post_id kv.2 <> id) (comments d) |}.

Definition delete_post (id : Z) (user : User) (d : DB) (ms : MediaStore)
  : Outcome unit :=
  match posts d !! id with
  | None => abort (HTTPException 404 "Post not found") d ms
  | Some post =>
      if negb (bool_decide (post_owner_id post = Models.id user)) then
        abort (HTTPException 403 "Not authorized to delete this post") d ms
      else
        let image_url_to_delete := image_url post in
        let video_url_to_delete := video_url post in
        let d' := delete_post_row id d in
        let tasks := (present_task image_url_to_delete
                      ++ present_task video_url_to_delete)%list in
        let eff := gather MediaStore urlparse_path settings imagekit tasks ms in
        {| response := bind (returned eff) (fun _ => Ok tt);
           db := d'; delete_tasks := tasks; media := eff |}
  end.

(** *** comments.py *)

Variable comment_accepted : Comment -> bool.

Definition apply_comment_update (c : Comment) (u : CommentUpdate) : Comment :=
  {| comment_id := comment_id c;
     comment_content := default (comment_content c) (upd_comment_content u);
     comment_owner_id := comment_owner_id c;
     comment_post_id := comment_post_id c |}.

Definition update_comment (id : Z) (comment_update : CommentUpdate)
    (user : User) (d : DB) (ms : MediaStore) : Outcome Comment :=
  match comments d !! id with
  | None => abort (HTTPException 404 "Comment not found") d ms
  | Some comment =>
      if negb (bool_decide (comment_owner_id comment = Models.id user)) then
        abort (HTTPException 403 "Not authorized to update this comment") d ms
      else
        let comment' := apply_comment_update comment comment_update in
        if negb (comment_accepted comment') then
          abort (IntegrityError "commit") d ms
        else
          {| response := Ok comment';
             db := {| posts := posts d;
                      comments := <[id := comment']> (comments d) |};
             delete_tasks := []; media := no_media ms |}
  end.

Definition delete_comment (id : Z) (user : User) (d : DB) (ms : MediaStore)
  : Outcome unit :=
  match comments d !! id with
  | None => abort (HTTPException 404 "Comment not found") d ms
  | Some comment =>
      if negb (bool_decide (comment_owner_id comment = Models.id user)) then
        abort (HTTPException 403 "Not authorized to delete this comment") d ms
      else
        {| response := Ok tt;
           db := {| posts := posts d; comments := delete id (comments d) |};
           delete_tasks := []; media := no_media ms |}
  end.

End Handlers.

Arguments response {MediaStore A}.
Arguments db {MediaStore A}.
Arguments delete_tasks {MediaStore A}.
Arguments media {MediaStore A}.

End Posts.

(** ** app.py: login, refresh and e-mail verification *)

Module App.

(** Values of a decoded JWT payload. *)
#[local] Set Warnings "-register-all".
Inductive json : Type :=
| JNull
| JBool (b : bool)
| JNum (n : Z)
| JStr (s : string)
| JArr (l : list json)
| JObj (l : list (string * json)).
#[local] Set Warnings "register-all".

(** Truth value of what [payload.get(...)] returns ([None] when the key is
    missing). *)
Definition json_truthy (v : option json) : bool :=
  match v with
  | None | Some JNull => false
  | Some (JBool b) => b
  | Some (JNum n) => negb (n =? 0)%Z
  | Some (JStr s) => truthy_str s
  | Some (JArr l) => negb (Nat.eqb (length l) 0)
  | Some (JObj l) => negb (Nat.eqb (length l) 0)
  end.

(** Writes issued to the user table. *)
Inductive UserWrite : Type :=
| UpdateIsVerified (uid : UUID) (v : bool)
| UpdateHashedPassword (uid : UUID) (h : string).

Definition set_is_verified (u : User) (v : bool) : User :=
  {| id := id u; email := email u; hashed_password := hashed_password u;
     is_active := is_active u; is_superuser := is_superuser u;
     is_verified := v; full_name := full_name u |}.

Definition set_hashed_password (u : User) (h : string) : User :=
  {| id := id u; email := email u; hashed_password := h;
     is_active := is_active u; is_superuser := is_superuser u;
     is_verified := is_verified u; full_name := full_name u |}.

(** *** GET /auth/verify *)

(** The HTML page the handler renders. *)
Inductive Page : Type :=
| EmailVerified (email : string)
| AlreadyVerified (email : string)
| TokenExpired
| InvalidToken
| VerificationFailed (e : PyExc).

Section Verify.

(** [jwt.decode(token, key, audience=..., algorithms=["HS256"])] read at
    clock time [now]: the payload, or the exception PyJWT raises. *)
Variable jwt_decode : string -> string -> string -> Z -> Result (gmap string json).

(** [uuid.UUID(s)]; [None] stands for the [ValueError] raised on a badly
    formed string. *)
Variable UUID_parse : string -> option UUID.

Variable JWT_SECRET : string.

(** [UUID(user_id)] on a payload value: anything but a string has no
    [replace] method. *)
Definition UUID_of_json (v : option json) : Result UUID :=
  match v with
  | Some (JStr s) =>
      match UUID_parse s with
      | Some uid => Ok uid
      | None => Raise (ValueError "badly formed hexadecimal UUID string")
      end
  | _ => Raise (AttributeError "replace")
  end.

(** The [try] block of [verify_email_get]. *)
Definition verify_try (token : string) (now : Z) (users : gmap UUID User)
  : Result Page * gmap UUID User * list UserWrite :=
  match jwt_decode token JWT_SECRET "fastapi-users:verify" now with
  | Raise e => (Raise e, users, [])
  | Ok payload =>
      let user_id := payload !! "sub" in
      if negb (json_truthy user_id) then
        (Raise (HTTPException 400 "Invalid token: missing user ID"), users, [])
      else
        match UUID_of_json user_id with
        | Raise e => (Raise e, users, [])
        | Ok uid =>
            match users !! uid with
            | None => (Raise (HTTPException 400 "User not found"), users, [])
            | Some user =>
                if is_verified user then
                  (Ok (AlreadyVerified (email user)), users, [])
                else
                  let user' := set_is_verified user true in
                  (Ok (EmailVerified (email user')),
                   <[id user := user']> users,
                   [UpdateIsVerified (id user) true])
            end
        end
  end.

(** The [except] clauses, in source order. *)
Definition verify_except (e : PyExc) : Page :=
  if is_ExpiredSignatureError e then TokenExpired
  else if is_InvalidTokenError e then InvalidToken
  else VerificationFailed e.

Definition verify_email_get (token : string) (now : Z) (users : gmap UUID User)
  : Page * gmap UUID User * list UserWrite :=
  match verify_try token now users with
  | (Ok page, users', ws) => (page, users', ws)
  | (Raise e, users', ws) => (verify_except e, users', ws)
  end.

End Verify.

(** *** Token strategies *)

(** Claims of a token, as far as the strategy reads them; [sub] is the
    subject when it is present and parses as a user id. *)
Record Claims : Type := {
  sub : option UUID;
  aud : list string;
  exp : option Z
}.

(** A token string: either the compact serialisation of [claims] signed
    with [key] (HS256 is deterministic, so key and claims determine the
    string), or a string that is no such serialisation. *)
Inductive TokenString : Type :=
| Raw (s : string)
| Compact (key : string) (claims : Claims).

(** [not token] *)
Definition token_falsy (t : TokenString) : bool :=
  match t with
  | Raw s => negb (truthy_str s)
  | Compact _ _ => false
  end.

(** The strategy interface of fastapi-users. *)
Record Strategy : Type := {
  write_token : Z -> User -> TokenString;
  read_token : Z -> TokenString -> gmap UUID User -> option User
}.

(** fastapi-users' [JWTStrategy], which auth.py instantiates with the
    signing secret and a lifetime and otherwise leaves at its defaults:
    the audience below, HS256, and no claim besides [sub], [aud] and
    [exp]. *)
Definition token_audience : list string := ["fastapi-users:auth"].

(** [write_token(user)]: the expiry is the clock reading, in whole
    seconds, plus the lifetime. *)
Definition jwt_write_token (secret : string) (lifetime_seconds : Z)
    (now : Z) (user : User) : TokenString :=
  Compact secret {| sub := Some (id user); aud := token_audience;
                    exp := Some (now + lifetime_seconds) |}.

(** PyJWT rejects a token whose [exp] is not after the clock reading. *)
Definition jwt_expired (now : Z) (c : Claims) : bool :=
  match exp c with
  | Some e => (e <=? now)%Z
  | None => false
  end.

Definition jwt_audience_ok (c : Claims) : bool :=
  existsb (fun a => bool_decide (a ∈ token_audience)) (aud c).

(** [read_token(token, user_manager)] answers [None] on any decoding
    failure (wrong key, expired, wrong audience), on a missing or
    unparsable subject and on an unknown user. *)
Definition jwt_read_token (secret : string) (now : Z) (token : TokenString)
    (users : gmap UUID User) : option User :=
  match token with
  | Raw _ => None
  | Compact key c =>
      if negb (bool_decide (key = secret)) then None
      else if jwt_expired now c then None
      else if negb (jwt_audience_ok c) then None
      else uid ← sub c; users !! uid
  end.

Definition JWTStrategy (secret : string) (lifetime_seconds : Z) : Strategy :=
  {| write_token := jwt_write_token secret lifetime_seconds;
     read_token := jwt_read_token secret |}.

(** *** POST /auth/login and POST /auth/refresh *)

Record Cookie : Type := {
  cookie_key : string;
  cookie_value : TokenString;
  max_age : Z;
  httponly : bool;
  secure : bool;
  samesite : string
}.

Inductive AppLog : Type :=
| LoginAttempt (username : string)
| LoginFailed (username : string)
| LoginSucceeded (email : string).

Section Auth.

(** Settings read by the routes. *)
Variable JWT_SECRET : string.
Variable ENVIRONMENT : string.

(** Lookup of a user row by e-mail address. *)
Variable get_by_email : gmap UUID User -> string -> option User.

(** [PasswordHelper.verify_and_update(password, hash)]: whether the
    password matches, and a re-hash when the stored one is outdated. *)
Variable verify_and_update : string -> string -> bool * option string.

(** auth.py *)
Definition get_access_token_strategy : Strategy := JWTStrategy JWT_SECRET 900.
Definition get_refresh_token_strategy : Strategy := JWTStrategy JWT_SECRET 604800.

(** Modelled from the spec: [UserManager.authenticate] is inherited from
    fastapi-users and is not part of the repository; it looks the user up
    by e-mail, verifies the password against the stored hash and answers
    [None] both for an unknown e-mail and for a wrong password. *)
Definition authenticate (username password : string) (users : gmap UUID User)
  : option User * gmap UUID User * list UserWrite :=
  match get_by_email users username with
  | None => (None, users, [])
  | Some user =>
      match verify_and_update password (hashed_password user) with
      | (false, _) => (None, users, [])
      | (true, None) => (Some user, users, [])
      | (true, Some h) =>
          let user' := set_hashed_password user h in
          (Some user', <[id user := user']> users,
           [UpdateHashedPassword (id user) h])
      end
  end.

Definition refresh_cookie (value : TokenString) : Cookie :=
  {| cookie_key := "refresh_token"; cookie_value := value;
     max_age := 604800; httponly := true;
     secure := bool_decide (ENVIRONMENT = "production");
     samesite := "lax" |}.

(** What the route leaves behind: the JSON body or the raised
    [HTTPException], the cookie set on the response, the user table, the
    writes to it and the log. *)
Record AuthOutcome : Type := {
  auth_response : Result (TokenString * string);
  auth_cookie : option Cookie;
  auth_users : gmap UUID User;
  auth_writes : list UserWrite;
  auth_log : list AppLog
}.

(** [t_access] and [t_refresh] are the clock readings (in seconds) of the
    two [write_token] calls. *)
Definition login (username password : string) (t_access t_refresh : Z)
    (users : gmap UUID User) : AuthOutcome :=
  let '(user, users', ws) := authenticate username password users in
  match user with
  | Some user =>
      if is_active user then
        let access_token := write_token get_access_token_strategy t_access user in
        let refresh_token := write_token get_refresh_token_strategy t_refresh user in
        {| auth_response := Ok (access_token, "bearer");
           auth_cookie := Some (refresh_cookie refresh_token);
           auth_users := users'; auth_writes := ws;
           auth_log := [LoginAttempt username; LoginSucceeded (email user)] |}
      else
        {| auth_response := Raise (HTTPException 400 "LOGIN_BAD_CREDENTIALS");
           auth_cookie := None; auth_users := users'; auth_writes := ws;
           auth_log := [LoginAttempt username; LoginFailed username] |}
  | None =>
      {| auth_response := Raise (HTTPException 400 "LOGIN_BAD_CREDENTIALS");
         auth_cookie := None; auth_users := users'; auth_writes := ws;
         auth_log := [LoginAttempt username; LoginFailed username] |}
  end.

(** The [try] block of [refresh_token]. *)
Definition refresh_try (refresh_token_value : TokenString)
    (t_read t_access t_refresh : Z) (users : gmap UUID User)
  : Result (TokenString * string) * option Cookie :=
  match read_token get_refresh_token_strategy t_read refresh_token_value users with
  | Some user =>
      if is_active user then
        let new_access_token := write_token get_access_token_strategy t_access user in
        let new_refresh_token := write_token get_refresh_token_strategy t_refresh user in
        (Ok (new_access_token, "bearer"), Some (refresh_cookie new_refresh_token))
      else
        (Raise (HTTPException 401 "Invalid refresh token or inactive user"), None)
  | None =>
      (Raise (HTTPException 401 "Invalid refresh token or inactive user"), None)
  end.

(** [cookie] is [request.cookies.get("refresh_token")]. *)
Definition refresh_token (cookie : option TokenString)
    (t_read t_access t_refresh : Z) (users : gmap UUID User)
  : Result (TokenString * string) * option Cookie :=
  match cookie with
  | None =>
      (Raise (HTTPException 401 "Refresh token not found. Please login again."),
       None)
  | Some refresh_token_value =>
      if token_falsy refresh_token_value then
        (Raise (HTTPException 401 "Refresh token not found. Please login again."),
         None)
      else
        match refresh_try refresh_token_value t_read t_access t_refresh users with
        | (Ok body, c) => (Ok body, c)
        | (Raise _, _) =>
            (Raise (HTTPException 401
               "Invalid or expired refresh token. Please login again."), None)
        end
  end.

End Auth.

End App.

(** ** auth_backend.py: the admin session *)

Module AdminAuthBackend.

Section Backend.

(** How the query resolves the string kept in the session to a user id;
    on a string that is no id ([None]) the query raises. *)
Variable UUID_parse : string -> option UUID.

(** [authenticate(request)]: the returned flag (or the exception that
    escapes) and [request.session] afterwards. *)
Definition authenticate (session : gmap string string) (users : gmap UUID User)
  : Result bool * gmap string string :=
  match session !! "user_id" with
  | None => (Ok false, session)
  | Some user_id =>
      if negb (truthy_str user_id) then (Ok false, session)
      else
        match UUID_parse user_id with
        | None => (Raise (ValueError "badly formed hexadecimal UUID string"), session)
        | Some uid =>
            match users !! uid with
            | None => (Ok false, ∅)
            | Some user =>
                if negb (is_active user) || negb (is_superuser user) then
                  (Ok false, ∅)
                else (Ok true, session)
            end
        end
  end.

(** [logout(request)] *)
Definition logout (session : gmap string string) : bool * gmap string string :=
  (true, ∅).

(** [str(user.id)] *)
Variable UUID_str : UUID -> string.

(** [PasswordHelper().verify_and_update(password, hash)] on the submitted
    form value, which is [None] when the field is missing. *)
Variable verify_and_update :
  option string -> string -> Result (bool * option string).

(** Rows of [select(User).where(User.email == username)]; a missing form
    field compares the column with NULL and selects nothing. *)
Definition users_with_email (users : gmap UUID User) (username : option string)
  : list User :=
  match username with
  | None => []
  | Some e => filter (fun u => email u = e) (map_to_list users).*2
  end.

(** [login(request)]: [form] is the submitted form.  [scalar_one_or_none]
    raises sqlalchemy's MultipleResultsFound on more than one row, written
    here as a [RuntimeError]; the re-hash [verify_and_update] may propose
    is dropped. *)
Definition login (form : gmap string string) (session : gmap string string)
    (users : gmap UUID User) : Result bool * gmap string string :=
  let username := form !! "username" in
  let password := form !! "password" in
  match users_with_email users username with
  | [] => (Ok false, session)
  | [user] =>
      match verify_and_update password (hashed_password user) with
      | Raise e => (Raise e, session)
      | Ok (verified, _) =>
          if negb verified then (Ok false, session)
          else if negb (is_active user) || negb (is_superuser user) then
            (Ok false, session)
          else
            (Ok true,
             <["user_email" := email user]>
               (<["user_id" := UUID_str (id user)]> session))
      end
  | _ => (Raise (RuntimeError "MultipleResultsFound"), session)
  end.

End Backend.

End AdminAuthBackend.

(** ** Concrete environments for the worked runs *)

Module Sample.
Import Utils Posts App.

Definition alice : User :=
  {| id := 1%N; email := "alice@example.com"; hashed_password := "h-alice";
     is_active := true; is_superuser := true; is_verified := true;
     full_name := None |}.

Definition bob : User :=
  {| id := 2%N; email := "bob@example.com"; hashed_password := "h-bob";
     is_active := false; is_superuser := false; is_verified := true;
     full_name := Some "Bob" |}.

Definition carol : User :=
  {| id := 3%N; email := "carol@example.com"; hashed_password := "h-carol";
     is_active := true; is_superuser := false; is_verified := false;
     full_name := None |}.

Definition users : gmap UUID User :=
  <[1%N := alice]> (<[2%N := bob]> (<[3%N := carol]> ∅)).

(** Ids are written ["1"] to ["4"] in the runs below. *)
Definition UUID_parse (s : string) : option UUID :=
  if decide (s = "1") then Some 1%N
  else if decide (s = "2") then Some 2%N
  else if decide (s = "3") then Some 3%N
  else if decide (s = "4") then Some 4%N
  else None.

(** A stand-in for [jwt.decode]: the token names the failure PyJWT reports
    for it, any other token decodes to a payload whose subject is the
    token itself. *)
Definition jwt_decode (token key audience : string) (now : Z)
  : Result (gmap string json) :=
  if decide (token = "expired") then Raise ExpiredSignatureError
  else if decide (token = "tampered") then Raise InvalidSignatureError
  else if decide (token = "garbage") then Raise DecodeError
  else if decide (token = "other-audience") then Raise InvalidAudienceError
  else Ok {[ "sub" := JStr token ]}.

Definition get_by_email (us : gmap UUID User) (e : string) : option User :=
  if decide (e = "alice@example.com") then us !! 1%N
  else if decide (e = "bob@example.com") then us !! 2%N
  else if decide (e = "carol@example.com") then us !! 3%N
  else None.

Definition verify_and_update (password hash : string) : bool * option string :=
  (bool_decide (hash = "h-" +:+ password), None).

(** A media store holding the ids of its files by path. *)
Definition media_store : Type := list (string * string).

Definition imagekit : ImageKit media_store :=
  {| list_files := fun path ms =>
       Ok (map snd (filter (fun kv => kv.1 = path) ms));
     delete_file := fun file_id ms =>
       (Ok tt, filter (fun kv => kv.2 <> file_id) ms) |}.

Definition settings : Settings :=
  {| IMAGEKIT_URL_ENDPOINT := "https://ik.imagekit.io/demo" |}.

Definition urlparse_path (url : string) : Result string := Ok url.

Definition post1 : Post :=
  {| post_id := 10; title := Some "hello"; content := None;
     image_url := Some ""; video_url := None; post_owner_id := 1%N |}.

Definition post2 : Post :=
  {| post_id := 11; title := Some "clip"; content := None;
     image_url := Some "https://ik.imagekit.io/demo/a.png";
     video_url := Some "https://cdn.example.org/v.mp4";
     post_owner_id := 1%N |}.

Definition comment1 : Comment :=
  {| comment_id := 5; comment_content := Some "first";
     comment_owner_id := 2%N; comment_post_id := 10 |}.

Definition database : DB :=
  {| posts := <[10 := post1]> (<[11 := post2]> ∅);
     comments := <[5 := comment1]> ∅ |}.

Definition accept_post (p : Post) : bool := bool_decide (is_Some (title p)).
Definition accept_comment (c : Comment) : bool :=
  bool_decide (is_Some (comment_content c)).

End Sample.

(** ** Vocabulary of the statements *)

Module Spec.
Import Utils Posts.

(** What the cleanup owes one file-backed field of an updated post:
    [present] is the field's entry in the payload, [old] and [new] its
    value before and after the commit, [tasks] the deletions issued for it. *)
Definition field_cleanup (present : option (option string))
    (old new : option string) (tasks : list string) : Prop :=
  match present with
  | None => tasks = []
  | Some _ =>
      (forall s, old = Some s -> s <> "" -> old <> new -> tasks = [s])
      /\ (old = None \/ old = Some "" \/ old = new -> tasks = [])
      /\ (forall s, new = Some s -> s ∉ tasks)
  end.

(** The handler stopped at the guard with this status and left the
    database alone. *)
Definition rejected {MediaStore A} (o : Outcome MediaStore A) (d : DB)
    (status : Z) (detail : string) : Prop :=
  response o = Raise (HTTPException status detail)
  /\ db o = d /\ delete_tasks o = [] /\ calls (media o) = [].


(** Every row is stored under its own id. *)
Definition users_wf (users : gmap UUID User) : Prop :=
  forall k u, users !! k = Some u -> id u = k.

(** A payload whose subject is the id of a stored user. *)
Definition names_user (UUID_parse : string -> option UUID)
    (payload : gmap string App.json) (users : gmap UUID User)
    (uid : UUID) (user : User) : Prop :=
  exists s, payload !! "sub" = Some (App.JStr s) /\ s <> ""
            /\ UUID_parse s = Some uid /\ users !! uid = Some user.

(** A login that was turned down: the 400 answer and no cookie. *)
Definition login_failed (o : App.AuthOutcome) : Prop :=
  App.auth_response o = Raise (HTTPException 400 "LOGIN_BAD_CREDENTIALS")
  /\ App.auth_cookie o = None.

End Spec.

(** ** posts.py: creating posts and comments *)

Module Creation.

(** [PostCreate] *)
Record PostCreate : Type := {
  new_title : string;
  new_content : option string;
  new_image_url : option string;
  new_video_url : option string
}.

(** [CommentCreate] *)
Record CommentCreate : Type := { new_comment_content : string }.

Section Handlers.

Variable post_accepted : Post -> bool.
Variable comment_accepted : Comment -> bool.

(** The primary key the database assigns to the next inserted row. *)
Variable next_post_id : DB -> Z.
Variable next_comment_id : DB -> Z.

(** The [Post] built from [post.model_dump()] and [owner_id=user.id], with
    the key it gets at [commit]. *)
Definition new_post (post : PostCreate) (user : User) (d : DB) : Post :=
  {| post_id := next_post_id d;
     title := Some (new_title post);
     content := new_content post;
     image_url := new_image_url post;
     video_url := new_video_url post;
     post_owner_id := id user |}.

Definition create_post (post : PostCreate) (user : User) (d : DB)
  : Result Post * DB :=
  let p := new_post post user d in
  if negb (post_accepted p) then (Raise (IntegrityError "commit"), d)
  else (Ok p, {| posts := <[post_id p := p]> (posts d);
                 comments := comments d |}).

Definition new_comment (pid : Z) (comment : CommentCreate) (user : User)
    (d : DB) : Comment :=
  {| comment_id := next_comment_id d;
     comment_content := Some (new_comment_content comment);
     comment_owner_id := id user;
     comment_post_id := pid |}.

Definition create_comment_for_post (pid : Z) (comment : CommentCreate)
    (user : User) (d : DB) : Result Comment * DB :=
  match posts d !! pid with
  | None => (Raise (HTTPException 404 "Post not found"), d)
  | Some _ =>
      let c := new_comment pid comment user d in
      if negb (comment_accepted c) then (Raise (IntegrityError "commit"), d)
      else (Ok c, {| posts := posts d;
                     comments := <[comment_id c := c]> (comments d) |})
  end.

End Handlers.

End Creation.

(** ** The handlers behind the database driver *)

Module Ranged.
Import Utils Posts.

(** Every handler below starts with a [select] that binds the id from the
    path to the integer key column.  The driver refuses a value the
    column cannot hold: [session.execute] raises before any row is looked
    at, the session is rolled back and the request fails without an
    [HTTPException].  The definitions here are the handlers of [Posts] and
    [Creation] with that refusal in front. *)

Section Handlers.

Variable MediaStore : Type.
Variable urlparse_path : string -> Result string.
Variable settings : Settings.
Variable imagekit : option (ImageKit MediaStore).
Variable post_accepted : Post -> bool.
Variable comment_accepted : Comment -> bool.
Variable next_comment_id : DB -> Z.

(** Whether the key column can hold the value. *)
Variable key_in_range : Z -> bool.

Definition out_of_range : PyExc := DBAPIError "value out of range".

Definition update_post (id : Z) (post_update : PostUpdate) (user : User)
    (d : DB) (ms : MediaStore) : Outcome MediaStore Post :=
  if key_in_range id then
    Posts.update_post MediaStore urlparse_path settings imagekit post_accepted
      id post_update user d ms
  else abort MediaStore out_of_range d ms.

Definition delete_post (id : Z) (user : User) (d : DB) (ms : MediaStore)
  : Outcome MediaStore unit :=
  if key_in_range id then
    Posts.delete_post MediaStore urlparse_path settings imagekit id user d ms
  else abort MediaStore out_of_range d ms.

Definition update_comment (id : Z) (comment_update : CommentUpdate)
    (user : User) (d : DB) (ms : MediaStore) : Outcome MediaStore Comment :=
  if key_in_range id then
    Posts.update_comment MediaStore comment_accepted id comment_update user d ms
  else abort MediaStore out_of_range d ms.

Definition delete_comment (id : Z) (user : User) (d : DB) (ms : MediaStore)
  : Outcome MediaStore unit :=
  if key_in_range id then Posts.delete_comment MediaStore id user d ms
  else abort MediaStore out_of_range d ms.

Definition create_comment_for_post (pid : Z) (comment : Creation.CommentCreate)
    (user : User) (d : DB) : Result Comment * DB :=
  if key_in_range pid then
    Creation.create_comment_for_post comment_accepted next_comment_id
      pid comment user d
  else (Raise out_of_range, d).

End Handlers.


End Ranged.

(** ** admin.py: column formatters *)

Module AdminViews.

(** A Python [str] as the sequence of its code points. *)
Definition codepoint : Type := N.

(** ["..."] *)
Definition dots : list codepoint := [46%N; 46%N; 46%N].

(** [bool(s)] for a [str] *)
Definition nonempty (s : list codepoint) : bool :=
  match s with
  | [] => false
  | _ :: _ => true
  end.

(** [PostAdmin.column_details_formatters[Post.content]]:
    [m.content[:100] + "..." if m.content and len(m.content) > 100
     else m.content]; [len] and the slice count code points. *)
Definition content_details (content : option (list codepoint))
  : option (list codepoint) :=
  match content with
  | Some s =>
      if nonempty s && (100 <? length s)%nat then Some (take 100 s ++ dots)%list
      else content
  | None => None
  end.

End AdminViews.

(** ** manager.py and email.py: the verification mail *)

Module Manager.
Import App.

(** The message handed to the mail transport; [html_name] and [html_token]
    are the two values interpolated into the HTML body. *)
Record Message : Type := {
  subject : string;
  recipients : list string;
  html_name : string;
  html_token : string
}.

Inductive MailLog : Type :=
| InfoSending (email_to : string)
| SuccessSent (email_to : string)
| ErrorSending (email_to : string) (e : PyExc).

Section Mail.

(** [jwt.encode(payload, key, algorithm="HS256")] *)
Variable jwt_encode : gmap string json -> string -> string.

(** [str(user.id)] *)
Variable UUID_str : UUID -> string.

(** [MessageSchema(...)] validates each recipient: it raises on a string
    that is no e-mail address and otherwise keeps the address in its
    normal form; the other fields are stored as given. *)
Variable validate_recipient : string -> Result string.

(** [FastMail(conf).send_message(message)] *)
Variable send_message : Message -> Result unit.

Variable JWT_SECRET : string.

(** [user.full_name or user.email] *)
Definition display_name (user : User) : string :=
  if truthy (full_name user) then default (email user) (full_name user)
  else email user.

(** email.py, [send_verification_email]: what it returns, the messages the
    transport accepted, and its log. *)
Definition send_verification_email (email_to : string) (user : User)
    (token : string) : Result unit * list Message * list MailLog :=
  match validate_recipient email_to with
  | Raise e => (Raise e, [], [])
  | Ok recipient =>
      let message := {| subject := "Verify Your Email Address";
                        recipients := [recipient];
                        html_name := display_name user;
                        html_token := token |} in
      match send_message message with
      | Ok _ => (Ok tt, [message], [InfoSending email_to; SuccessSent email_to])
      | Raise e => (Ok tt, [], [InfoSending email_to; ErrorSending email_to e])
      end
  end.

(** [UserManager.send_verification_email]: any exception is printed and
    dropped. *)
Definition manager_send_verification_email (user : User) (token : string)
  : Result unit * list Message * list MailLog :=
  match send_verification_email (email user) user token with
  | (Ok _, sent, ls) => (Ok tt, sent, ls)
  | (Raise _, sent, ls) => (Ok tt, sent, ls)
  end.

(** The claims signed at registration; [now] is [datetime.utcnow()] in
    seconds. *)
Definition token_data (user : User) (now : Z) : gmap string json :=
  <["sub" := JStr (UUID_str (id user))]>
    (<["email" := JStr (email user)]>
       (<["aud" := JStr "fastapi-users:verify"]>
          (<["exp" := JNum (now + 86400)]> ∅))).

Definition verification_token (user : User) (now : Z) : string :=
  jwt_encode (token_data user now) JWT_SECRET.

(** [UserManager.on_after_register] *)
Definition on_after_register (user : User) (now : Z)
  : Result unit * list Message * list MailLog :=
  manager_send_verification_email user (verification_token user now).

End Mail.

End Manager.

(** ** Further concrete values for the worked runs *)

Module Fixtures.
Import App.

Definition UUID_str (u : UUID) : string :=
  if decide (u = 1%N) then "1"
  else if decide (u = 2%N) then "2"
  else if decide (u = 3%N) then "3"
  else if decide (u = 4%N) then "4"
  else "?".

(** The admin form check: the password of [x] hashes to ["h-x"]. *)
Definition admin_verify (password : option string) (hash : string)
  : Result (bool * option string) :=
  match password with
  | Some pw => Ok (bool_decide (hash = "h-" +:+ pw), None)
  | None => Raise (ValueError "password")
  end.

(** The counterpart of [Sample.jwt_decode]: the token is the subject. *)
Definition jwt_encode (payload : gmap string json) (key : string) : string :=
  match payload !! "sub" with
  | Some (JStr s) => s
  | _ => "garbage"
  end.

(** Keys are handed out past the largest one in use. *)
Definition next_post_id (d : DB) : Z :=
  1 + foldr Z.max 0 (map_to_list (posts d)).*1.
Definition next_comment_id (d : DB) : Z :=
  1 + foldr Z.max 0 (map_to_list (comments d)).*1.

(** The widest range an integer key column has: 64 bits, signed. *)
Definition key_in_range (z : Z) : bool :=
  (-9223372036854775808 <=? z)%Z && (z <=? 9223372036854775807)%Z.

(** A validation that lower-cases nothing and accepts every address with
    an [@] in it, and a transport that accepts every message. *)
Definition validate_recipient (address : string) : Result string :=
  if bool_decide (index 0 "@" address = None) then
    Raise (ValueError "value is not a valid email address")
  else Ok address.

Definition send_message (m : Manager.Message) : Result unit := Ok tt.

Definition draft : Creation.PostCreate :=
  {| Creation.new_title := "draft"; Creation.new_content := None;
     Creation.new_image_url := Some "https://ik.imagekit.io/demo/c.png";
     Creation.new_video_url := None |}.

End Fixtures.

(** ** Vocabulary of the further statements *)

Module More.

(** A url kept in a post that is absent or lies outside the ImageKit
    endpoint. *)
Definition external_url (settings : Utils.Settings) (url : option string)
  : Prop :=
  forall u, url = Some u ->
    startswith u (Utils.IMAGEKIT_URL_ENDPOINT settings) = false.

End More.

(** * Properties *)

(** ** Python truth values *)

Lemma truthy_str_true s : truthy_str s = true <-> s <> "".
Proof. unfold truthy_str. case_decide; split; congruence. Qed.

Lemma truthy_Some o : truthy o = true <-> exists s, o = Some s /\ s <> "".
Proof.
  destruct o as [s|]; simpl.
  - rewrite truthy_str_true. split; [eauto | intros (s' & [= ->] & H); done].
  - split; [done | intros (s & H & _); done].
Qed.

Lemma neq_opt_true a b : neq_opt a b = true <-> a <> b.
Proof. unfold neq_opt. case_decide; split; congruence. Qed.

Lemma neq_opt_refl a : neq_opt a a = false.
Proof. unfold neq_opt. case_decide; congruence. Qed.

(** ** Media cleanup never fails *)

Section MediaFacts.
Import Utils.

Variable MediaStore : Type.
Variable urlparse_path : string -> Result string.
Variable settings : Settings.
Variable imagekit : option (ImageKit MediaStore).

(** Whatever the client does, the routine returns normally. *)
Lemma delete_file_returns file_url ms :
  returned (delete_file_from_imagekit MediaStore urlparse_path settings
              imagekit file_url ms) = Ok tt.
Proof.
  unfold delete_file_from_imagekit.
  destruct (truthy_str file_url), imagekit as [ik|]; try reflexivity.
  destruct (negb _); [reflexivity|].
  destruct (delete_try _ _ _ _ _) as [[[[[]|e] cs] ls] ms']; reflexivity.
Qed.

Lemma gather_returns urls ms :
  returned (gather MediaStore urlparse_path settings imagekit urls ms) = Ok tt.
Proof.
  revert ms. induction urls as [|u rest IH]; intros ms; simpl; [done|].
  by rewrite delete_file_returns, IH.
Qed.

(** Without a client nothing reaches the store. *)
Lemma delete_file_no_client file_url ms :
  imagekit = None ->
  let e := delete_file_from_imagekit MediaStore urlparse_path settings
             imagekit file_url ms in
  calls e = [] /\ store e = ms /\ logs e = [WarnNoUrlOrClient].
Proof.
  intros ->. unfold delete_file_from_imagekit.
  by destruct (truthy_str file_url).
Qed.

(** A raising client is logged as an error and swallowed. *)
Lemma delete_file_raising ik file_url ms e cs ls ms' :
  imagekit = Some ik ->
  file_url <> "" ->
  startswith file_url (IMAGEKIT_URL_ENDPOINT settings) = true ->
  delete_try MediaStore urlparse_path ik file_url ms = (Raise e, cs, ls, ms') ->
  let r := delete_file_from_imagekit MediaStore urlparse_path settings
             imagekit file_url ms in
  returned r = Ok tt /\ logs r = (ls ++ [ErrorDeleting file_url e])%list.
Proof.
  intros -> Hne Hpre Htry. unfold delete_file_from_imagekit.
  apply truthy_str_true in Hne. rewrite Hne, Hpre, Htry. done.
Qed.

(** No match for the path: a warning, no deletion. *)
Lemma delete_file_not_found ik file_url ms path :
  imagekit = Some ik ->
  file_url <> "" ->
  startswith file_url (IMAGEKIT_URL_ENDPOINT settings) = true ->
  urlparse_path file_url = Ok path ->
  list_files ik path ms = Ok [] ->
  let r := delete_file_from_imagekit MediaStore urlparse_path settings
             imagekit file_url ms in
  returned r = Ok tt /\ calls r = [ListFiles path] /\ store r = ms
  /\ logs r = [InfoFindPath path; WarnNotFound path].
Proof.
  intros -> Hne Hpre Hp Hl. unfold delete_file_from_imagekit, delete_try.
  apply truthy_str_true in Hne. rewrite Hne, Hpre, Hp, Hl. done.
Qed.

End MediaFacts.

(** C10: a url that is empty or does not start with the configured ImageKit
    endpoint makes [delete_file_from_imagekit] return normally without any
    call to the media store (no lookup, no deletion), leaving the store as
    it was. *)
Theorem delete_file_skips_foreign_url
    (MediaStore : Type) (urlparse_path : string -> Result string)
    (settings : Utils.Settings) (imagekit : option (Utils.ImageKit MediaStore))
    (file_url : string) (ms : MediaStore) :
  file_url = "" \/
  startswith file_url (Utils.IMAGEKIT_URL_ENDPOINT settings) = false ->
  let e := Utils.delete_file_from_imagekit MediaStore urlparse_path settings
             imagekit file_url ms in
  Utils.returned e = Ok tt /\ Utils.calls e = [] /\ Utils.store e = ms.
Proof.
  intros H. unfold Utils.delete_file_from_imagekit.
  destruct (truthy_str file_url) eqn:Ht, imagekit as [ik|]; try done.
  destruct H as [-> | ->]; [|done].
  by vm_compute in Ht.
Qed.

Lemma delete_file_skips_foreign_url_witness :
  let e := Utils.delete_file_from_imagekit Sample.media_store
             Sample.urlparse_path Sample.settings (Some Sample.imagekit)
             "https://cdn.example.org/v.mp4"
             [("https://cdn.example.org/v.mp4", "f1")] in
  Utils.returned e = Ok tt /\ Utils.calls e = []
  /\ Utils.store e = [("https://cdn.example.org/v.mp4", "f1")].
Proof.
  apply (delete_file_skips_foreign_url Sample.media_store Sample.urlparse_path
           Sample.settings (Some Sample.imagekit)
           "https://cdn.example.org/v.mp4").
  right. vm_compute. reflexivity.
Defined.

(** ** Post deletion and its cleanup *)

Section PostFacts.
Import Utils Posts Spec.

Variable MediaStore : Type.
Variable urlparse_path : string -> Result string.
Variable settings : Settings.
Variable imagekit : option (ImageKit MediaStore).
Variable post_accepted : Post -> bool.
Variable comment_accepted : Comment -> bool.

Lemma present_task_filter url :
  present_task url = List.filter truthy_str (option_list url).
Proof.
  unfold present_task. destruct url as [s|]; simpl; [|done].
  by destruct (truthy_str s).
Qed.

Lemma changed_task_cases old new :
  (exists s, old = Some s /\ s <> "" /\ old <> new /\ changed_task old new = [s])
  \/ ((old = None \/ old = Some "" \/ old = new) /\ changed_task old new = []).
Proof.
  unfold changed_task. destruct old as [s|]; simpl; [|right; auto].
  unfold truthy_str, neq_opt. repeat case_decide; simpl; subst; eauto 10.
Qed.

Lemma field_cleanup_holds present old :
  field_cleanup present old (default old present)
    (changed_task (captured present old) (default old present)).
Proof.
  destruct present as [v|]; simpl; [|done].
  destruct (changed_task_cases old v) as [(s & -> & Hs & Hne & ->) | [H ->]].
  - split_and!.
    + by intros s' [= ->] _ _.
    + intros [?|[[= ?]|?]]; done.
    + intros s' -> [->|[]%elem_of_nil]%elem_of_cons. done.
  - split_and!.
    + intros s -> Hs Hne. destruct H as [?|[[= ?]|?]]; done.
    + done.
    + intros s _. apply not_elem_of_nil.
Qed.

Lemma gather_no_client urls ms :
  imagekit = None ->
  let e := gather MediaStore urlparse_path settings imagekit urls ms in
  calls e = [] /\ store e = ms
  /\ logs e = map (fun _ => WarnNoUrlOrClient) urls.
Proof.
  intros ->. revert ms. induction urls as [|u rest IH]; intros ms; simpl; [done|].
  destruct (delete_file_no_client MediaStore urlparse_path settings None u ms
              eq_refl) as (Hc & Hs & Hl).
  rewrite Hc, Hs, Hl. destruct (IH ms) as (Hc' & Hs' & Hl').
  rewrite Hc', Hs', Hl'. done.
Qed.

End PostFacts.

(** C8, negative part: a post whose [image_url] is the empty string has a
    non-null captured url, yet its deletion by the owner schedules no
    media deletion at all. *)
Lemma delete_post_empty_url_unscheduled :
  let o := Posts.delete_post Sample.media_store Sample.urlparse_path
             Sample.settings (Some Sample.imagekit)
             10 Sample.alice Sample.database [] in
  posts Sample.database !! 10 = Some Sample.post1
  /\ image_url Sample.post1 = Some ""
  /\ Posts.response o = Ok tt
  /\ posts (Posts.db o) !! 10 = None
  /\ Posts.delete_tasks o = [].
Proof. vm_compute. done. Qed.

(** C8 as the code has it: when the owner deletes a post, the row (with its
    comments) is removed whatever the media store does, the handler
    answers normally, and the deletions scheduled are exactly the image
    and video urls the row held before it was deleted that are neither
    null nor empty, image first; every scheduled deletion returns
    normally: without a client nothing reaches the store and each task
    logs one warning, a lookup without match logs a warning and deletes
    nothing, and an exception of the client is logged as an error. *)
Theorem delete_post_cleanup
    (MediaStore : Type) (urlparse_path : string -> Result string)
    (settings : Utils.Settings) (imagekit : option (Utils.ImageKit MediaStore))
    (id : Z) (user : User) (d : DB) (ms : MediaStore) (post : Post) :
  posts d !! id = Some post ->
  post_owner_id post = Models.id user ->
  let o := Posts.delete_post MediaStore urlparse_path settings imagekit
             id user d ms in
  Posts.response o = Ok tt
  /\ Posts.db o = Posts.delete_post_row id d
  /\ posts (Posts.db o) !! id = None
  /\ Posts.delete_tasks o
     = List.filter truthy_str
         (option_list (image_url post) ++ option_list (video_url post))
  /\ Posts.media o
     = Utils.gather MediaStore urlparse_path settings imagekit
         (Posts.delete_tasks o) ms
  /\ Utils.returned (Posts.media o) = Ok tt
  /\ (imagekit = None ->
      Utils.calls (Posts.media o) = []
      /\ Utils.logs (Posts.media o)
         = map (fun _ => Utils.WarnNoUrlOrClient) (Posts.delete_tasks o))
  /\ (forall ik u ms0,
        imagekit = Some ik -> In u (Posts.delete_tasks o) ->
        startswith u (Utils.IMAGEKIT_URL_ENDPOINT settings) = true ->
        let r := Utils.delete_file_from_imagekit MediaStore urlparse_path
                   settings imagekit u ms0 in
        (forall path,
           urlparse_path u = Ok path -> Utils.list_files ik path ms0 = Ok [] ->
           Utils.returned r = Ok tt /\ Utils.calls r = [Utils.ListFiles path]
           /\ Utils.store r = ms0
           /\ Utils.logs r = [Utils.InfoFindPath path; Utils.WarnNotFound path])
        /\ (forall e cs ls ms1,
              Utils.delete_try MediaStore urlparse_path ik u ms0
              = (Raise e, cs, ls, ms1) ->
              Utils.returned r = Ok tt
              /\ Utils.logs r = (ls ++ [Utils.ErrorDeleting u e])%list)).
Proof.
  intros Hrow Hown. unfold Posts.delete_post. rewrite Hrow.
  rewrite bool_decide_eq_true_2 by done. simpl.
  rewrite gather_returns. simpl.
  rewrite !present_task_filter, <- List.filter_app.
  split_and!; try done.
  - apply lookup_delete_eq.
  - intros Hnone.
    destruct (gather_no_client MediaStore urlparse_path settings imagekit
                (List.filter truthy_str
                   (option_list (image_url post) ++ option_list (video_url post)))
                ms Hnone) as (Hc & _ & Hl).
    done.
  - intros ik u ms0 Hik [_ Hu%truthy_str_true]%List.filter_In Hpre. split.
    + intros path Hp Hl.
      by apply (delete_file_not_found MediaStore urlparse_path settings
                  imagekit ik).
    + intros e cs ls ms1 Htry.
      by apply (delete_file_raising MediaStore urlparse_path settings
                  imagekit ik u ms0 e cs ls ms1).
Qed.

Lemma delete_post_cleanup_witness :
  let o := Posts.delete_post Sample.media_store Sample.urlparse_path
             Sample.settings (Some Sample.imagekit)
             11 Sample.alice Sample.database
             [("https://ik.imagekit.io/demo/a.png", "f1")] in
  Posts.response o = Ok tt
  /\ Posts.delete_tasks o
     = ["https://ik.imagekit.io/demo/a.png"; "https://cdn.example.org/v.mp4"]
  /\ Utils.calls (Posts.media o)
     = [Utils.ListFiles "https://ik.imagekit.io/demo/a.png";
        Utils.DeleteFile "f1"].
Proof.
  destruct (delete_post_cleanup Sample.media_store Sample.urlparse_path
              Sample.settings (Some Sample.imagekit) 11 Sample.alice
              Sample.database [("https://ik.imagekit.io/demo/a.png", "f1")]
              Sample.post2)
    as (Hr & _ & _ & Ht & Hm & _).
  - vm_compute. reflexivity.
  - reflexivity.
  - split; [exact Hr|]. split; [rewrite Ht; vm_compute; reflexivity|].
    rewrite Hm, Ht. vm_compute. reflexivity.
Defined.

(** ** Post update and its cleanup *)

(** C4, negative part: the owner replaces an [image_url] that is the empty
    string (non-null) by a new url; the value changed, the commit
    succeeded, and no deletion attempt was issued. *)
Lemma update_post_empty_old_url_unscheduled :
  let u := {| upd_title := None; upd_content := None;
              upd_image_url := Some (Some "https://ik.imagekit.io/demo/n.png");
              upd_video_url := None |} in
  let o := Posts.update_post Sample.media_store Sample.urlparse_path
             Sample.settings (Some Sample.imagekit) Sample.accept_post
             10 u Sample.alice Sample.database [] in
  posts Sample.database !! 10 = Some Sample.post1
  /\ image_url Sample.post1 = Some ""
  /\ (image_url <$> posts (Posts.db o) !! 10)
     = Some (Some "https://ik.imagekit.io/demo/n.png")
  /\ Posts.delete_tasks o = [].
Proof. vm_compute. done. Qed.

(** The per-field rule looks at one field at a time: when the owner swaps
    the two urls of a post, each old url is scheduled for deletion although
    the other field now holds it. *)
Example update_post_swap_urls :
  let u := {| upd_title := None; upd_content := None;
              upd_image_url := Some (Some "https://cdn.example.org/v.mp4");
              upd_video_url := Some (Some "https://ik.imagekit.io/demo/a.png") |} in
  Posts.delete_tasks
    (Posts.update_post Sample.media_store Sample.urlparse_path
       Sample.settings (Some Sample.imagekit) Sample.accept_post
       11 u Sample.alice Sample.database [])
  = ["https://ik.imagekit.io/demo/a.png"; "https://cdn.example.org/v.mp4"].
Proof. vm_compute. reflexivity. Qed.

(** C4 as the code has it: when the owner updates a post and the commit
    succeeds, the updated row is stored and returned, and the deletion
    attempts are those of the image field followed by those of the video
    field, where a field absent from the payload issues none, and a field
    present in it issues exactly one, against its old url, when that old
    value is neither null nor empty and differs from the new value, and
    none otherwise (in particular none when the value is unchanged), never
    against the field's own new value.  When the commit fails nothing is
    scheduled and nothing reaches the media store. *)
Theorem update_post_cleanup
    (MediaStore : Type) (urlparse_path : string -> Result string)
    (settings : Utils.Settings) (imagekit : option (Utils.ImageKit MediaStore))
    (post_accepted : Post -> bool)
    (id : Z) (u : PostUpdate) (user : User) (d : DB) (ms : MediaStore)
    (post : Post) :
  posts d !! id = Some post ->
  post_owner_id post = Models.id user ->
  let post' := Posts.apply_post_update post u in
  let o := Posts.update_post MediaStore urlparse_path settings imagekit
             post_accepted id u user d ms in
  (post_accepted post' = true ->
     Posts.response o = Ok post'
     /\ posts (Posts.db o) !! id = Some post'
     /\ exists ti tv,
          Posts.delete_tasks o = (ti ++ tv)%list
          /\ Spec.field_cleanup (upd_image_url u) (image_url post)
               (image_url post') ti
          /\ Spec.field_cleanup (upd_video_url u) (video_url post)
               (video_url post') tv)
  /\ (post_accepted post' = false ->
        Posts.response o = Raise (IntegrityError "commit")
        /\ Posts.db o = d
        /\ Posts.delete_tasks o = []
        /\ Utils.calls (Posts.media o) = []).
Proof.
  intros Hrow Hown post' o. subst o. unfold Posts.update_post.
  rewrite Hrow, bool_decide_eq_true_2 by done. simpl. fold post'.
  split; intros Hacc; rewrite Hacc; simpl; [|done].
  rewrite gather_returns. simpl. split_and!; [done | apply lookup_insert_eq |].
  eexists _, _. split; [reflexivity|].
  split; apply field_cleanup_holds.
Qed.

Lemma update_post_cleanup_witness :
  let u := {| upd_title := None; upd_content := None;
              upd_image_url := Some (Some "https://ik.imagekit.io/demo/b.png");
              upd_video_url := None |} in
  let o := Posts.update_post Sample.media_store Sample.urlparse_path
             Sample.settings (Some Sample.imagekit) Sample.accept_post
             11 u Sample.alice Sample.database [] in
  exists ti tv,
    Posts.delete_tasks o = (ti ++ tv)%list
    /\ Spec.field_cleanup (upd_image_url u) (image_url Sample.post2)
         (Some "https://ik.imagekit.io/demo/b.png") ti
    /\ Spec.field_cleanup (upd_video_url u) (video_url Sample.post2)
         (Some "https://cdn.example.org/v.mp4") tv.
Proof.
  intros u o.
  destruct (update_post_cleanup Sample.media_store Sample.urlparse_path
              Sample.settings (Some Sample.imagekit) Sample.accept_post
              11 u Sample.alice Sample.database [] Sample.post2)
    as [Hok _].
  - vm_compute. reflexivity.
  - reflexivity.
  - destruct Hok as (_ & _ & H); [vm_compute; reflexivity | exact H].
Defined.

(** ** The ownership guard *)

Section GuardFacts.
Import Utils Posts Spec.

Variable MediaStore : Type.
Variable urlparse_path : string -> Result string.
Variable settings : Settings.
Variable imagekit : option (ImageKit MediaStore).
Variable post_accepted : Post -> bool.
Variable comment_accepted : Comment -> bool.

Let update_post :=
  update_post MediaStore urlparse_path settings imagekit post_accepted.
Let delete_post := delete_post MediaStore urlparse_path settings imagekit.
Let update_comment := update_comment MediaStore comment_accepted.
Let delete_comment := delete_comment MediaStore.

Ltac guard_fails H :=
  unfold rejected, update_post, delete_post, update_comment, delete_comment,
    Posts.update_post, Posts.delete_post,
    Posts.update_comment, Posts.delete_comment;
  rewrite H; try rewrite bool_decide_eq_false_2 by done; simpl; done.

Lemma post_guard_not_found id u user d ms :
  posts d !! id = None ->
  rejected (update_post id u user d ms) d 404 "Post not found"
  /\ rejected (delete_post id user d ms) d 404 "Post not found".
Proof. intros H. split; guard_fails H. Qed.

Lemma post_guard_forbidden id u user d ms post :
  posts d !! id = Some post ->
  post_owner_id post <> Models.id user ->
  rejected (update_post id u user d ms) d 403 "Not authorized to update this post"
  /\ rejected (delete_post id user d ms) d 403 "Not authorized to delete this post".
Proof. intros H Hne. split; guard_fails H. Qed.


Lemma comment_guard_not_found id u user d ms :
  comments d !! id = None ->
  rejected (update_comment id u user d ms) d 404 "Comment not found"
  /\ rejected (delete_comment id user d ms) d 404 "Comment not found".
Proof. intros H. split; guard_fails H. Qed.

Lemma comment_guard_forbidden id u user d ms c :
  comments d !! id = Some c ->
  comment_owner_id c <> Models.id user ->
  rejected (update_comment id u user d ms) d 403
    "Not authorized to update this comment"
  /\ rejected (delete_comment id user d ms) d 403
       "Not authorized to delete this comment".
Proof. intros H Hne. split; guard_fails H. Qed.


End GuardFacts.




(** ** E-mail verification *)

Section VerifyFacts.
Import App Spec.

Variable jwt_decode : string -> string -> string -> Z -> Result (gmap string json).
Variable UUID_parse : string -> option UUID.
Variable JWT_SECRET : string.

Let decode (token : string) (now : Z) :=
  jwt_decode token JWT_SECRET "fastapi-users:verify" now.
Let verify := verify_email_get jwt_decode UUID_parse JWT_SECRET.

Let names_user := names_user UUID_parse.

Lemma verify_known_user token now users payload uid user :
  decode token now = Ok payload ->
  names_user payload users uid user ->
  verify token now users
  = if is_verified user then (AlreadyVerified (email user), users, [])
    else (EmailVerified (email user),
          <[id user := set_is_verified user true]> users,
          [UpdateIsVerified (id user) true]).
Proof.
  intros Hd (s & Hsub & Hs & Hp & Hu).
  unfold verify, verify_email_get, verify_try. unfold decode in Hd.
  rewrite Hd, Hsub. simpl.
  apply truthy_str_true in Hs. rewrite Hs, Hp. simpl. rewrite Hu.
  by destruct (is_verified user).
Qed.

Lemma verify_unknown_user token now users payload s uid :
  decode token now = Ok payload ->
  payload !! "sub" = Some (JStr s) -> s <> "" ->
  UUID_parse s = Some uid -> users !! uid = None ->
  verify token now users
  = (VerificationFailed (HTTPException 400 "User not found"), users, []).
Proof.
  intros Hd Hsub Hs Hp Hu.
  unfold verify, verify_email_get, verify_try. unfold decode in Hd.
  rewrite Hd, Hsub. simpl.
  apply truthy_str_true in Hs. rewrite Hs, Hp. simpl. by rewrite Hu.
Qed.

(** When the decoder raises, the page only depends on the exception, and
    nothing is written. *)
Lemma verify_decode_raises token now users e :
  decode token now = Raise e ->
  verify token now users = (verify_except e, users, []).
Proof.
  intros Hd. unfold verify, verify_email_get, verify_try.
  unfold decode in Hd. by rewrite Hd.
Qed.

(** When the decoder answers, the handler never renders the expired or the
    invalid page, and a success page names a stored user. *)
Lemma verify_decode_ok token now users payload :
  decode token now = Ok payload ->
  (exists uid user, names_user payload users uid user)
  \/ (exists e, verify token now users = (VerificationFailed e, users, [])).
Proof.
  intros Hd. unfold verify, verify_email_get, verify_try.
  unfold decode in Hd. rewrite Hd.
  destruct (payload !! "sub") as [v|] eqn:Hsub; simpl; [|right; eauto].
  destruct v as [|b|n|s|l|l]; simpl.
  - right; eauto.
  - destruct b; simpl; right; eauto.
  - destruct (n =? 0)%Z; simpl; right; eauto.
  - destruct (truthy_str s) eqn:Hs; simpl; [|right; eauto].
    destruct (UUID_parse s) as [uid|] eqn:Hp; simpl; [|right; eauto].
    destruct (users !! uid) as [user|] eqn:Hu; [|right; eauto].
    left. exists uid, user, s. by rewrite truthy_str_true in Hs.
  - destruct (Nat.eqb _ _); simpl; right; eauto.
  - destruct (Nat.eqb _ _); simpl; right; eauto.
Qed.

Lemma verify_success_inv token now users page users1 ws e :
  verify token now users = (page, users1, ws) ->
  page = EmailVerified e \/ page = AlreadyVerified e ->
  exists payload uid user,
    decode token now = Ok payload /\ names_user payload users uid user
    /\ e = email user.
Proof.
  intros Hv Hpage.
  destruct (decode token now) as [payload|ex] eqn:Hd.
  - destruct (verify_decode_ok token now users payload Hd)
      as [(uid & user & Hn) | (ex & Hf)].
    + exists payload, uid, user. split_and!; [done..|].
      rewrite (verify_known_user _ _ _ _ _ _ Hd Hn) in Hv.
      destruct (is_verified user); simplify_eq; destruct Hpage; by simplify_eq.
    + rewrite Hf in Hv. simplify_eq. destruct Hpage; done.
  - rewrite (verify_decode_raises _ _ _ _ Hd) in Hv. simplify_eq.
    unfold verify_except in Hpage.
    destruct (is_ExpiredSignatureError ex), (is_InvalidTokenError ex);
      destruct Hpage; done.
Qed.

End VerifyFacts.

(** C1: redeeming a verification token of a user who is already verified
    renders the already-verified page, writes nothing and leaves the user
    table as it was; hence, after a redemption that rendered a success
    page, redeeming the same still-valid token again renders the
    already-verified page for the same address, with no write. *)
Theorem verify_redeem_idempotent
    (jwt_decode : string -> string -> string -> Z -> Result (gmap string App.json))
    (UUID_parse : string -> option UUID) (JWT_SECRET : string)
    (token : string) (now now' : Z) (users : gmap UUID User) :
  Spec.users_wf users ->
  (forall payload uid user,
     jwt_decode token JWT_SECRET "fastapi-users:verify" now = Ok payload ->
     Spec.names_user UUID_parse payload users uid user ->
     is_verified user = true ->
     App.verify_email_get jwt_decode UUID_parse JWT_SECRET token now users
     = (App.AlreadyVerified (email user), users, []))
  /\ (forall page users1 ws1 e,
        App.verify_email_get jwt_decode UUID_parse JWT_SECRET token now users
        = (page, users1, ws1) ->
        page = App.EmailVerified e \/ page = App.AlreadyVerified e ->
        jwt_decode token JWT_SECRET "fastapi-users:verify" now'
        = jwt_decode token JWT_SECRET "fastapi-users:verify" now ->
        App.verify_email_get jwt_decode UUID_parse JWT_SECRET token now' users1
        = (App.AlreadyVerified e, users1, [])).
Proof.
  intros Hwf. split.
  - intros payload uid user Hd Hn Hv.
    rewrite (verify_known_user _ _ _ _ _ _ _ _ _ Hd Hn). by rewrite Hv.
  - intros page users1 ws1 e H1 Hpage Hsame.
    destruct (verify_success_inv _ _ _ _ _ _ _ _ _ _ H1 Hpage)
      as (payload & uid & user & Hd & Hn & ->).
    rewrite (verify_known_user _ _ _ _ _ _ _ _ _ Hd Hn) in H1.
    rewrite <- Hsame in Hd.
    destruct Hn as (s & Hsub & Hs & Hp & Hu).
    destruct (is_verified user) eqn:Hv; simplify_eq.
    + rewrite (verify_known_user _ _ _ _ _ _ _ uid user Hd);
        [by rewrite Hv | by exists s].
    + rewrite (Hwf _ _ Hu).
      rewrite (verify_known_user _ _ _ _ _ _ _ uid
                 (App.set_is_verified user true) Hd); [done|].
      exists s. split_and!; [done..|]. apply lookup_insert_eq.
Qed.

Lemma verify_redeem_idempotent_witness :
  let verify :=
    App.verify_email_get Sample.jwt_decode Sample.UUID_parse "secret" in
  let users1 := <[3%N := App.set_is_verified Sample.carol true]> Sample.users in
  verify "3" 100 Sample.users
  = (App.EmailVerified "carol@example.com", users1,
     [App.UpdateIsVerified 3%N true])
  /\ verify "3" 200 users1
     = (App.AlreadyVerified "carol@example.com", users1, []).
Proof.
  intros verify users1.
  assert (H1 : verify "3" 100 Sample.users
               = (App.EmailVerified "carol@example.com", users1,
                  [App.UpdateIsVerified 3%N true])).
  { unfold verify, users1. vm_compute. reflexivity. }
  split; [exact H1|].
  assert (Hwf : Spec.users_wf Sample.users).
  { intros k u. unfold Sample.users.
    rewrite !lookup_insert. repeat case_decide; subst; try done;
      intros [= <-]; reflexivity. }
  destruct (verify_redeem_idempotent Sample.jwt_decode Sample.UUID_parse
              "secret" "3" 100 200 Sample.users Hwf) as [_ H2].
  apply (H2 _ _ _ _ H1); [left; reflexivity | reflexivity].
Defined.

(** C6, negative part: a token that decodes, whose subject parses as an id
    no stored user has, renders the verification-failed page, which is not
    the invalid-token page a malformed token gets. *)
Lemma verify_unknown_user_not_invalid :
  let verify :=
    App.verify_email_get Sample.jwt_decode Sample.UUID_parse "secret" in
  Sample.jwt_decode "4" "secret" "fastapi-users:verify" 100
  = Ok {[ "sub" := App.JStr "4" ]}
  /\ Sample.UUID_parse "4" = Some 4%N
  /\ Sample.users !! 4%N = None
  /\ (verify "4" 100 Sample.users).1.1
     = App.VerificationFailed (HTTPException 400 "User not found")
  /\ (verify "garbage" 100 Sample.users).1.1 = App.InvalidToken
  /\ (verify "4" 100 Sample.users).1.1 <> App.InvalidToken.
Proof. vm_compute. split_and!; done. Qed.

(** C6 as the code has it: a token that decodes, whose subject parses as
    an id no stored user has, raises the 400 "User not found" exception
    inside the handler's own [try], so the catch-all clause renders the
    verification-failed page carrying that exception; this is not the
    invalid-token page, and nothing is written. *)
Theorem verify_unknown_user_fails
    (jwt_decode : string -> string -> string -> Z -> Result (gmap string App.json))
    (UUID_parse : string -> option UUID) (JWT_SECRET : string)
    (token : string) (now : Z) (users : gmap UUID User)
    (payload : gmap string App.json) (s : string) (uid : UUID) :
  jwt_decode token JWT_SECRET "fastapi-users:verify" now = Ok payload ->
  payload !! "sub" = Some (App.JStr s) ->
  s <> "" ->
  UUID_parse s = Some uid ->
  users !! uid = None ->
  App.verify_email_get jwt_decode UUID_parse JWT_SECRET token now users
  = (App.VerificationFailed (HTTPException 400 "User not found"), users, [])
  /\ App.VerificationFailed (HTTPException 400 "User not found")
     <> App.InvalidToken.
Proof.
  intros Hd Hsub Hs Hp Hu. split; [|done].
  by apply (verify_unknown_user _ _ _ _ _ _ payload s uid).
Qed.

Lemma verify_unknown_user_fails_witness :
  App.verify_email_get Sample.jwt_decode Sample.UUID_parse "secret" "4" 100
    Sample.users
  = (App.VerificationFailed (HTTPException 400 "User not found"),
     Sample.users, [])
  /\ App.VerificationFailed (HTTPException 400 "User not found")
     <> App.InvalidToken.
Proof.
  apply (verify_unknown_user_fails Sample.jwt_decode Sample.UUID_parse "secret"
           "4" 100 Sample.users {[ "sub" := App.JStr "4" ]} "4" 4%N).
  - vm_compute. reflexivity.
  - vm_compute. reflexivity.
  - discriminate.
  - vm_compute. reflexivity.
  - vm_compute. reflexivity.
Defined.

(** C7: when the decoder reports expiry the handler renders the expired
    page; when it reports a bad signature, an unparsable token or a wrong
    audience the handler renders the invalid page; in both cases nothing
    is written.  The two pages are different, the expired page is rendered
    only for a token the decoder reports expired, and the invalid page
    only for a token it rejects for another reason. *)
Theorem verify_expired_vs_invalid
    (jwt_decode : string -> string -> string -> Z -> Result (gmap string App.json))
    (UUID_parse : string -> option UUID) (JWT_SECRET : string)
    (token : string) (now : Z) (users : gmap UUID User) :
  let decoded := jwt_decode token JWT_SECRET "fastapi-users:verify" now in
  let r := App.verify_email_get jwt_decode UUID_parse JWT_SECRET token now users in
  (decoded = Raise ExpiredSignatureError -> r = (App.TokenExpired, users, []))
  /\ (forall e, decoded = Raise e ->
        e = InvalidSignatureError \/ e = DecodeError \/ e = InvalidAudienceError ->
        r = (App.InvalidToken, users, []))
  /\ (r.1.1 = App.TokenExpired <-> decoded = Raise ExpiredSignatureError)
  /\ (r.1.1 = App.InvalidToken <->
        exists e, decoded = Raise e /\ is_InvalidTokenError e = true
                  /\ e <> ExpiredSignatureError)
  /\ App.TokenExpired <> App.InvalidToken.
Proof.
  intros decoded r. subst r.
  destruct decoded as [payload|e] eqn:Hd; subst decoded.
  - destruct (verify_decode_ok jwt_decode UUID_parse _ _ _ users _ Hd)
      as [(uid & user & Hn) | (ex & Hf)].
    + rewrite (verify_known_user _ _ _ _ _ _ _ _ _ Hd Hn).
      split_and!; try done.
      * destruct (is_verified user); simpl; split; done.
      * destruct (is_verified user); simpl; split;
          [done | intros (? & ? & _); done | done | intros (? & ? & _); done].
    + rewrite Hf. simpl. split_and!; try done.
      split; [done | intros (? & ? & _); done].
  - rewrite (verify_decode_raises jwt_decode UUID_parse _ _ _ users _ Hd). simpl.
    split_and!.
    + by intros [= ->].
    + by intros e' [= ->] [->|[->| ->]].
    + unfold App.verify_except.
      destruct e; simpl; split; (done || (intros [= ?]; done)).
    + unfold App.verify_except. split.
      * intros H. exists e. destruct e; simpl in *; done.
      * intros (e' & [= <-] & He & Hne). destruct e; simpl in *; done.
    + done.
Qed.

Lemma verify_expired_vs_invalid_witness :
  let verify :=
    App.verify_email_get Sample.jwt_decode Sample.UUID_parse "secret" in
  verify "expired" 100 Sample.users = (App.TokenExpired, Sample.users, [])
  /\ verify "other-audience" 100 Sample.users
     = (App.InvalidToken, Sample.users, []).
Proof.
  intros verify. split.
  - destruct (verify_expired_vs_invalid Sample.jwt_decode Sample.UUID_parse
                "secret" "expired" 100 Sample.users) as (H & _).
    apply H. vm_compute. reflexivity.
  - destruct (verify_expired_vs_invalid Sample.jwt_decode Sample.UUID_parse
                "secret" "other-audience" 100 Sample.users) as (_ & H & _).
    apply (H InvalidAudienceError); [vm_compute; reflexivity | auto].
Defined.

(** ** Login *)

Section LoginFacts.
Import App Spec.

Variable JWT_SECRET : string.
Variable ENVIRONMENT : string.
Variable get_by_email : gmap UUID User -> string -> option User.
Variable verify_and_update : string -> string -> bool * option string.

Let login := login JWT_SECRET ENVIRONMENT get_by_email verify_and_update.

(** The route has two ways out: the 400 answer without a cookie, or a
    token pair for an active user whose password matched. *)
Lemma login_cases username password t_access t_refresh users :
  let o := login username password t_access t_refresh users in
  (login_failed o
   /\ auth_log o = [LoginAttempt username; LoginFailed username]
   /\ (get_by_email users username = None
       \/ exists u, get_by_email users username = Some u
            /\ ((verify_and_update password (hashed_password u)).1 = false
                \/ is_active u = false)))
  \/ (exists u body c,
        get_by_email users username = Some u
        /\ (verify_and_update password (hashed_password u)).1 = true
        /\ is_active u = true
        /\ auth_response o = Ok body /\ auth_cookie o = Some c).
Proof.
  unfold login, App.login, authenticate, login_failed.
  destruct (get_by_email users username) as [u|]; simpl; [|left; auto].
  destruct (verify_and_update password (hashed_password u))
    as [[] [h|]] eqn:Hvu; simpl;
    try (left; split_and!; [done..|]; right; exists u; rewrite Hvu; auto; fail);
    (destruct (is_active u) eqn:Ha; simpl;
     [ right; eexists u, _, _; rewrite Hvu;
       split_and!; first [exact Ha | reflexivity]
     | left; split_and!; [done..|]; right; exists u; auto ]).
Qed.

End LoginFacts.

(** C3: a login with an unknown e-mail, with a wrong password for a known
    e-mail, or with the right password of an inactive user is answered by
    the same HTTP 400 with detail LOGIN_BAD_CREDENTIALS and no cookie; these
    are the only failures, so any two failing logins, whatever their
    inputs, have the same response and the same (absent) cookie. *)
Theorem login_failures_uniform
    (JWT_SECRET ENVIRONMENT : string)
    (get_by_email : gmap UUID User -> string -> option User)
    (verify_and_update : string -> string -> bool * option string)
    (username password : string) (t_access t_refresh : Z)
    (users : gmap UUID User)
    (username' password' : string) (t_access' t_refresh' : Z)
    (users' : gmap UUID User) :
  let o := App.login JWT_SECRET ENVIRONMENT get_by_email verify_and_update
             username password t_access t_refresh users in
  let o' := App.login JWT_SECRET ENVIRONMENT get_by_email verify_and_update
              username' password' t_access' t_refresh' users' in
  (get_by_email users username = None -> Spec.login_failed o)
  /\ (forall u, get_by_email users username = Some u ->
        (verify_and_update password (hashed_password u)).1 = false ->
        Spec.login_failed o)
  /\ (forall u, get_by_email users username = Some u ->
        (verify_and_update password (hashed_password u)).1 = true ->
        is_active u = false ->
        Spec.login_failed o)
  /\ (forall e e', App.auth_response o = Raise e ->
        App.auth_response o' = Raise e' ->
        App.auth_response o = App.auth_response o'
        /\ App.auth_cookie o = App.auth_cookie o'
        /\ Spec.login_failed o).
Proof.
  intros o o'.
  destruct (login_cases JWT_SECRET ENVIRONMENT get_by_email verify_and_update
              username password t_access t_refresh users)
    as [(Hf & _ & Hwhy) | (u & body & c & Hu & Hv & Ha & Hr & Hc)];
  fold o in Hf || fold o in Hr, Hc.
  - split_and!; try done.
    intros e e' _ He'.
    destruct (login_cases JWT_SECRET ENVIRONMENT get_by_email verify_and_update
                username' password' t_access' t_refresh' users')
      as [([Hr' Hc'] & _) | (u' & body' & c' & _ & _ & _ & Hr' & _)];
    fold o' in Hr'; [|congruence].
    fold o' in Hc'. destruct Hf as [Hr Hc]. rewrite Hr, Hr', Hc, Hc'.
    split_and!; done.
  - split_and!.
    + congruence.
    + intros u0 Hu0 Hv0. congruence.
    + intros u0 Hu0 _ Ha0. congruence.
    + intros e e' He. congruence.
Qed.

Lemma login_failures_uniform_witness :
  let login := App.login "secret" "production" Sample.get_by_email
                 Sample.verify_and_update in
  Spec.login_failed (login "nobody@example.com" "x" 1000 1000 Sample.users)
  /\ Spec.login_failed (login "alice@example.com" "wrong" 1000 1000 Sample.users)
  /\ Spec.login_failed (login "bob@example.com" "bob" 1000 1000 Sample.users).
Proof.
  intros login. split_and!.
  - destruct (login_failures_uniform "secret" "production" Sample.get_by_email
                Sample.verify_and_update "nobody@example.com" "x" 1000 1000
                Sample.users "nobody@example.com" "x" 1000 1000 Sample.users)
      as (H & _).
    apply H. vm_compute. reflexivity.
  - destruct (login_failures_uniform "secret" "production" Sample.get_by_email
                Sample.verify_and_update "alice@example.com" "wrong" 1000 1000
                Sample.users "nobody@example.com" "x" 1000 1000 Sample.users)
      as (_ & H & _).
    apply (H Sample.alice); vm_compute; reflexivity.
  - destruct (login_failures_uniform "secret" "production" Sample.get_by_email
                Sample.verify_and_update "bob@example.com" "bob" 1000 1000
                Sample.users "nobody@example.com" "x" 1000 1000 Sample.users)
      as (_ & _ & H & _).
    apply (H Sample.bob); vm_compute; reflexivity.
Defined.

(** ** Refresh-token exchange *)

Section RefreshFacts.
Import App Spec.

Variable JWT_SECRET : string.
Variable ENVIRONMENT : string.

Let refresh := get_refresh_token_strategy JWT_SECRET.

(** What [read_token] accepts. *)
Lemma jwt_read_token_inv secret now token users user :
  jwt_read_token secret now token users = Some user ->
  exists c uid,
    token = Compact secret c /\ jwt_expired now c = false
    /\ sub c = Some uid /\ users !! uid = Some user.
Proof.
  destruct token as [s|key c]; simpl; [done|].
  case_bool_decide as Hk; simpl; [|done]. subst key.
  destruct (jwt_expired now c) eqn:He; [done|].
  destruct (jwt_audience_ok c); simpl; [|done].
  destruct (sub c) as [uid|] eqn:Hs; simpl; [|done].
  intros Hu. by exists c, uid.
Qed.

(** A successful exchange sets the cookie to a token freshly written for
    the user the submitted token names. *)
Lemma refresh_token_ok tok t_read t_access t_refresh users body co :
  refresh_token JWT_SECRET ENVIRONMENT (Some tok) t_read t_access t_refresh users
  = (Ok body, co) ->
  exists user,
    read_token refresh t_read tok users = Some user
    /\ is_active user = true
    /\ co = Some (refresh_cookie ENVIRONMENT (write_token refresh t_refresh user)).
Proof.
  unfold refresh_token, refresh_try. destruct (token_falsy tok); [done|].
  fold refresh.
  destruct (read_token refresh t_read tok users) as [user|]; [|done].
  destruct (is_active user) eqn:Ha; [|done].
  intros [= <- <-]. by exists user.
Qed.

End RefreshFacts.

(** C5, negative part: alice logs in and exchanges the refresh token of
    that login within the same clock second; the exchange succeeds and the
    refresh token it sets is the very string that was submitted. *)
Lemma refresh_same_second_same_token :
  let o := App.login "secret" "production" Sample.get_by_email
             Sample.verify_and_update "alice@example.com" "alice"
             1000 1000 Sample.users in
  exists c body c',
    App.auth_cookie o = Some c
    /\ App.refresh_token "secret" "production" (Some (App.cookie_value c))
         1000 1000 1000 (App.auth_users o)
       = (Ok body, Some c')
    /\ App.cookie_value c' = App.cookie_value c.
Proof. vm_compute. eexists _, _, _. split_and!; reflexivity. Qed.

(** C5 as the code has it: a successful exchange sets a refresh token
    written at the time of the exchange for the user the submitted token
    names, expiring seven days later.  It differs from the submitted token
    whenever that one carries another expiry, in particular whenever it was
    issued by the refresh strategy at an earlier clock second; a token
    issued in the same second for the same user comes back unchanged. *)
Theorem refresh_rotation
    (JWT_SECRET ENVIRONMENT : string) (tok : App.TokenString)
    (t_read t_access t_refresh : Z) (users : gmap UUID User)
    (body : App.TokenString * string) (co : option App.Cookie) :
  App.refresh_token JWT_SECRET ENVIRONMENT (Some tok) t_read t_access t_refresh
    users = (Ok body, co) ->
  let refresh := App.get_refresh_token_strategy JWT_SECRET in
  exists user c,
    co = Some c
    /\ App.read_token refresh t_read tok users = Some user
    /\ is_active user = true
    /\ App.cookie_value c = App.write_token refresh t_refresh user
    /\ (forall key claims, tok = App.Compact key claims ->
          App.exp claims <> Some (t_refresh + 604800) ->
          App.cookie_value c <> tok)
    /\ (forall t0 user0, tok = App.write_token refresh t0 user0 ->
          t0 < t_refresh -> App.cookie_value c <> tok)
    /\ (forall user0, Spec.users_wf users ->
          tok = App.write_token refresh t_refresh user0 ->
          App.cookie_value c = tok).
Proof.
  intros H refresh.
  destruct (refresh_token_ok _ _ _ _ _ _ _ _ _ H) as (user & Hread & Ha & ->).
  exists user, (App.refresh_cookie ENVIRONMENT
                  (App.write_token refresh t_refresh user)).
  split_and!; try done.
  - intros key claims -> Hexp. simpl. unfold App.jwt_write_token.
    intros [= _ <-]. by apply Hexp.
  - intros t0 user0 -> Hlt. simpl. unfold App.jwt_write_token.
    intros [= _ ?]. lia.
  - intros user0 Hwf ->.
    unfold refresh, App.get_refresh_token_strategy, App.JWTStrategy in Hread.
    cbn [App.read_token App.write_token] in Hread.
    apply jwt_read_token_inv in Hread as (c & uid & [= <-] & _ & Hsub & Hu).
    simpl in Hsub. injection Hsub as <-.
    simpl. unfold App.jwt_write_token. by rewrite (Hwf _ _ Hu).
Qed.

Lemma refresh_rotation_witness :
  let refresh := App.get_refresh_token_strategy "secret" in
  let tok := App.write_token refresh 1000 Sample.alice in
  exists body c,
    App.refresh_token "secret" "production" (Some tok) 1500 1500 1500
      Sample.users = (Ok body, Some c)
    /\ App.cookie_value c = App.write_token refresh 1500 Sample.alice
    /\ App.cookie_value c <> tok.
Proof.
  intros refresh tok.
  pose (c := App.refresh_cookie "production"
               (App.write_token refresh 1500 Sample.alice)).
  pose (body := (App.write_token (App.get_access_token_strategy "secret")
                   1500 Sample.alice, "bearer")).
  assert (H : App.refresh_token "secret" "production" (Some tok) 1500 1500 1500
                Sample.users = (Ok body, Some c)).
  { vm_compute. reflexivity. }
  exists body, c. split; [exact H|]. split; [reflexivity|].
  destruct (refresh_rotation "secret" "production" tok 1500 1500 1500
              Sample.users body (Some c) H)
    as (user & c0 & [= <-] & _ & _ & _ & _ & Hold & _).
  apply (Hold 1000 Sample.alice); [reflexivity | lia].
Defined.

(** ** The admin session *)

(** C9: [authenticate] answers true only when the session's [user_id]
    resolves to a stored user who is active and superuser, and then leaves
    the session alone; when the id resolves but the user is gone, inactive
    or no longer superuser, the same call answers false and empties the
    session, and an emptied session is refused on every later call,
    whatever the user table has become. *)
Theorem admin_authenticate_revalidates
    (UUID_parse : string -> option UUID)
    (session : gmap string string) (users : gmap UUID User) :
  let r := AdminAuthBackend.authenticate UUID_parse session users in
  (r.1 = Ok true ->
     exists user_id uid user,
       session !! "user_id" = Some user_id /\ UUID_parse user_id = Some uid
       /\ users !! uid = Some user
       /\ is_active user = true /\ is_superuser user = true
       /\ r.2 = session)
  /\ (forall user_id uid user,
        session !! "user_id" = Some user_id -> user_id <> "" ->
        UUID_parse user_id = Some uid -> users !! uid = Some user ->
        is_active user = true -> is_superuser user = true ->
        r = (Ok true, session))
  /\ (forall user_id uid,
        session !! "user_id" = Some user_id -> user_id <> "" ->
        UUID_parse user_id = Some uid ->
        users !! uid = None
        \/ (exists user, users !! uid = Some user
              /\ (is_active user = false \/ is_superuser user = false)) ->
        r = (Ok false, ∅))
  /\ (forall users',
        AdminAuthBackend.authenticate UUID_parse ∅ users' = (Ok false, ∅)).
Proof.
  intros r. subst r. unfold AdminAuthBackend.authenticate. split_and!.
  - destruct (session !! "user_id") as [user_id|]; simpl; [|done].
    destruct (truthy_str user_id); simpl; [|done].
    destruct (UUID_parse user_id) as [uid|] eqn:Hp; simpl; [|done].
    destruct (users !! uid) as [user|] eqn:Hu; simpl; [|done].
    destruct (is_active user) eqn:Ha, (is_superuser user) eqn:Hs; simpl;
      try done.
    intros _. by exists user_id, uid, user.
  - intros user_id uid user -> Hne%truthy_str_true Hp Hu Ha Hs.
    by rewrite Hne, Hp, Hu, Ha, Hs.
  - intros user_id uid -> Hne%truthy_str_true Hp Hbad.
    rewrite Hne, Hp. simpl.
    destruct Hbad as [-> | (user & -> & [-> | ->])]; simpl; [done..|].
    by rewrite orb_true_r.
  - intros users'. by rewrite lookup_empty.
Qed.

Lemma admin_authenticate_revalidates_witness :
  let session : gmap string string :=
    <["user_id" := "2"]> (<["user_email" := "bob@example.com"]> ∅) in
  AdminAuthBackend.authenticate Sample.UUID_parse session Sample.users
  = (Ok false, ∅).
Proof.
  intros session.
  destruct (admin_authenticate_revalidates Sample.UUID_parse session
              Sample.users) as (_ & _ & H & _).
  apply (H "2" 2%N).
  - vm_compute. reflexivity.
  - discriminate.
  - vm_compute. reflexivity.
  - right. exists Sample.bob. split; [vm_compute; reflexivity | left; reflexivity].
Defined.

(** * Further properties of the handlers *)

(** ** utils.py *)

(** One run of [delete_file_from_imagekit] makes at most one lookup and at
    most one deletion: the lookup is for the path of the url itself, the
    deletion for the first file that lookup listed, and the store is only
    touched by that deletion. *)
Theorem delete_file_calls_shape
    (MediaStore : Type) (urlparse_path : string -> Result string)
    (settings : Utils.Settings) (imagekit : option (Utils.ImageKit MediaStore))
    (file_url : string) (ms : MediaStore) :
  let e := Utils.delete_file_from_imagekit MediaStore urlparse_path settings
             imagekit file_url ms in
  (Utils.calls e = [] /\ Utils.store e = ms)
  \/ (exists ik path,
        imagekit = Some ik /\ file_url <> ""
        /\ startswith file_url (Utils.IMAGEKIT_URL_ENDPOINT settings) = true
        /\ urlparse_path file_url = Ok path
        /\ ((Utils.calls e = [Utils.ListFiles path] /\ Utils.store e = ms)
            \/ (exists file_id rest,
                  Utils.list_files ik path ms = Ok (file_id :: rest)
                  /\ Utils.calls e
                     = [Utils.ListFiles path; Utils.DeleteFile file_id]
                  /\ Utils.store e = (Utils.delete_file ik file_id ms).2))).
Proof.
  unfold Utils.delete_file_from_imagekit.
  destruct (truthy_str file_url) eqn:Ht, imagekit as [ik|]; simpl; auto.
  destruct (startswith _ _) eqn:Hpre; simpl; auto.
  apply truthy_str_true in Ht. unfold Utils.delete_try.
  destruct (urlparse_path file_url) as [path|e] eqn:Hp; simpl; auto.
  right. exists ik, path. split_and!; try done.
  destruct (Utils.list_files ik path ms) as [[|file_id rest]|e] eqn:Hl;
    simpl; auto.
  right. exists file_id, rest.
  destruct (Utils.delete_file ik file_id ms) as [[[]|e] ms']; simpl; auto.
Qed.

Section MoreMediaFacts.
Import Utils.

Variable MediaStore : Type.
Variable urlparse_path : string -> Result string.
Variable settings : Settings.
Variable imagekit : option (ImageKit MediaStore).

Lemma delete_file_foreign u ms :
  startswith u (IMAGEKIT_URL_ENDPOINT settings) = false ->
  let e := delete_file_from_imagekit MediaStore urlparse_path settings
             imagekit u ms in
  calls e = [] /\ store e = ms.
Proof.
  intros H. unfold delete_file_from_imagekit.
  destruct (truthy_str u), imagekit as [ik|]; try done.
  by rewrite H.
Qed.

(** Urls outside the configured endpoint never reach the store. *)
Lemma gather_foreign urls ms :
  Forall (fun u => startswith u (IMAGEKIT_URL_ENDPOINT settings) = false) urls ->
  let e := gather MediaStore urlparse_path settings imagekit urls ms in
  calls e = [] /\ store e = ms.
Proof.
  intros H. revert ms. induction H as [|u rest Hu _ IH]; intros ms; simpl; [done|].
  destruct (delete_file_foreign u ms Hu) as (Hc & Hs).
  rewrite Hc, Hs. destruct (IH ms) as (Hc' & Hs'). by rewrite Hc', Hs'.
Qed.

End MoreMediaFacts.

(** ** posts.py and comments.py *)

Lemma present_task_external settings url :
  More.external_url settings url ->
  Forall (fun u => startswith u (Utils.IMAGEKIT_URL_ENDPOINT settings) = false)
    (Posts.present_task url).
Proof.
  intros H. unfold Posts.present_task. destruct url as [u|]; simpl; [|done].
  destruct (truthy_str u); simpl; [|done].
  apply Forall_cons. split; [by apply H | done].
Qed.

(** When the owner deletes a post whose media urls all lie outside the
    ImageKit endpoint, the row is deleted and the media store receives no
    call at all. *)
Theorem delete_post_external_media_untouched
    (MediaStore : Type) (urlparse_path : string -> Result string)
    (settings : Utils.Settings) (imagekit : option (Utils.ImageKit MediaStore))
    (id : Z) (user : User) (d : DB) (ms : MediaStore) (post : Post) :
  posts d !! id = Some post ->
  post_owner_id post = Models.id user ->
  More.external_url settings (image_url post) ->
  More.external_url settings (video_url post) ->
  let o := Posts.delete_post MediaStore urlparse_path settings imagekit
             id user d ms in
  Posts.response o = Ok tt
  /\ posts (Posts.db o) !! id = None
  /\ Utils.calls (Posts.media o) = []
  /\ Utils.store (Posts.media o) = ms.
Proof.
  intros Hrow Hown Hi Hv. unfold Posts.delete_post. rewrite Hrow.
  rewrite bool_decide_eq_true_2 by done. simpl.
  rewrite gather_returns. simpl.
  split_and!; [done | apply lookup_delete_eq | |];
    apply gather_foreign; apply Forall_app; split;
    by apply present_task_external.
Qed.

Lemma delete_post_external_media_untouched_witness :
  let post := {| post_id := 12; title := Some "ext"; content := None;
                 image_url := Some "https://cdn.example.org/p.png";
                 video_url := None; post_owner_id := 1%N |} in
  let d := {| posts := <[12 := post]> ∅; comments := ∅ |} in
  let ms := [("https://cdn.example.org/p.png", "f9")] in
  let o := Posts.delete_post Sample.media_store Sample.urlparse_path
             Sample.settings (Some Sample.imagekit) 12 Sample.alice d ms in
  Posts.response o = Ok tt
  /\ posts (Posts.db o) !! 12 = None
  /\ Utils.calls (Posts.media o) = []
  /\ Utils.store (Posts.media o) = ms.
Proof.
  intros post d ms.
  apply (delete_post_external_media_untouched Sample.media_store
           Sample.urlparse_path Sample.settings (Some Sample.imagekit)
           12 Sample.alice d ms post).
  - vm_compute. reflexivity.
  - reflexivity.
  - intros u [= <-]. vm_compute. reflexivity.
  - intros u. discriminate.
Defined.

Section MorePostFacts.
Import Utils Posts.

Variable MediaStore : Type.
Variable urlparse_path : string -> Result string.
Variable settings : Settings.
Variable imagekit : option (ImageKit MediaStore).
Variable post_accepted : Post -> bool.
Variable comment_accepted : Comment -> bool.

Lemma delete_post_row_comments id d cid c :
  comments (delete_post_row id d) !! cid = Some c
  <-> comments d !! cid = Some c /\ comment_post_id c <> id.
Proof. unfold delete_post_row. simpl. apply map_lookup_filter_Some. Qed.

Lemma delete_post_row_posts id d k :
  k <> id -> posts (delete_post_row id d) !! k = posts d !! k.
Proof. intros H. unfold delete_post_row. simpl. by apply lookup_delete_ne. Qed.

Lemma delete_post_db id user d ms post :
  posts d !! id = Some post ->
  post_owner_id post = Models.id user ->
  db (delete_post MediaStore urlparse_path settings imagekit id user d ms)
  = delete_post_row id d.
Proof.
  intros Hrow Hown. unfold delete_post.
  by rewrite Hrow, bool_decide_eq_true_2.
Qed.

Lemma apply_post_update_idem post u :
  apply_post_update (apply_post_update post u) u = apply_post_update post u.
Proof.
  unfold apply_post_update. simpl.
  by destruct (upd_title u), (upd_content u), (upd_image_url u), (upd_video_url u).
Qed.

Lemma changed_task_settled present old :
  changed_task (captured present (default old present)) (default old present) = [].
Proof.
  unfold changed_task. destruct present as [v|]; simpl; [|done].
  by rewrite neq_opt_refl, andb_false_r.
Qed.

Lemma update_post_ok id u user d ms post :
  posts d !! id = Some post ->
  post_owner_id post = Models.id user ->
  post_accepted (apply_post_update post u) = true ->
  let post' := apply_post_update post u in
  let tasks :=
    (changed_task (captured (upd_image_url u) (image_url post)) (image_url post')
     ++ changed_task (captured (upd_video_url u) (video_url post))
          (video_url post'))%list in
  update_post MediaStore urlparse_path settings imagekit post_accepted
    id u user d ms
  = {| response := Ok post';
       db := {| posts := <[id := post']> (posts d); comments := comments d |};
       delete_tasks := tasks;
       media := gather MediaStore urlparse_path settings imagekit tasks ms |}.
Proof.
  intros Hrow Hown Hacc. simpl. unfold update_post.
  rewrite Hrow, bool_decide_eq_true_2 by done. simpl. rewrite Hacc. simpl.
  by rewrite gather_returns.
Qed.

End MorePostFacts.

(** After the owner has deleted a post, a second delete of the same id is
    answered 404, and so is an update or delete of any comment that was
    attached to it, whoever asks. *)
Theorem delete_post_then_gone
    (MediaStore : Type) (urlparse_path : string -> Result string)
    (settings : Utils.Settings) (imagekit : option (Utils.ImageKit MediaStore))
    (comment_accepted : Comment -> bool)
    (id : Z) (user user' : User) (d : DB) (ms ms' : MediaStore) (post : Post) :
  posts d !! id = Some post ->
  post_owner_id post = Models.id user ->
  let d1 := Posts.db (Posts.delete_post MediaStore urlparse_path settings
                        imagekit id user d ms) in
  Spec.rejected
    (Posts.delete_post MediaStore urlparse_path settings imagekit id user' d1 ms')
    d1 404 "Post not found"
  /\ (forall cid c cu,
        comments d !! cid = Some c -> comment_post_id c = id ->
        Spec.rejected
          (Posts.update_comment MediaStore comment_accepted cid cu user' d1 ms')
          d1 404 "Comment not found"
        /\ Spec.rejected (Posts.delete_comment MediaStore cid user' d1 ms')
             d1 404 "Comment not found").
Proof.
  intros Hrow Hown d1. subst d1.
  rewrite (delete_post_db _ _ _ _ _ _ _ _ _ Hrow Hown). split.
  - apply (post_guard_not_found MediaStore urlparse_path settings imagekit
             (fun _ => true) id
             {| upd_title := None; upd_content := None;
                upd_image_url := None; upd_video_url := None |}).
    unfold Posts.delete_post_row. simpl. apply lookup_delete_eq.
  - intros cid c cu Hc Hpid.
    apply (comment_guard_not_found MediaStore comment_accepted).
    destruct (comments (Posts.delete_post_row id d) !! cid) as [c'|] eqn:E;
      [|done].
    apply delete_post_row_comments in E as [E Hne]. congruence.
Qed.

Lemma delete_post_then_gone_witness :
  let d1 := Posts.db (Posts.delete_post Sample.media_store Sample.urlparse_path
                        Sample.settings (Some Sample.imagekit)
                        10 Sample.alice Sample.database []) in
  Spec.rejected
    (Posts.delete_post Sample.media_store Sample.urlparse_path Sample.settings
       (Some Sample.imagekit) 10 Sample.alice d1 [])
    d1 404 "Post not found"
  /\ Spec.rejected (Posts.delete_comment Sample.media_store 5 Sample.bob d1 [])
       d1 404 "Comment not found".
Proof.
  intros d1.
  destruct (delete_post_then_gone Sample.media_store Sample.urlparse_path
              Sample.settings (Some Sample.imagekit) Sample.accept_comment
              10 Sample.alice Sample.alice Sample.database [] [] Sample.post1)
    as [H1 _]; [vm_compute; reflexivity | reflexivity |].
  destruct (delete_post_then_gone Sample.media_store Sample.urlparse_path
              Sample.settings (Some Sample.imagekit) Sample.accept_comment
              10 Sample.alice Sample.bob Sample.database [] [] Sample.post1)
    as [_ H2]; [vm_compute; reflexivity | reflexivity |].
  split; [exact H1|].
  apply (H2 5 Sample.comment1 {| upd_comment_content := None |});
    [vm_compute; reflexivity | reflexivity].
Defined.

(** Sending the same update again after it succeeded changes nothing and
    issues no deletion attempt: the media the post now points to is never
    a target of the retry. *)
Theorem update_post_retry
    (MediaStore : Type) (urlparse_path : string -> Result string)
    (settings : Utils.Settings) (imagekit : option (Utils.ImageKit MediaStore))
    (post_accepted : Post -> bool)
    (id : Z) (u : PostUpdate) (user : User) (d : DB) (ms ms' : MediaStore)
    (post : Post) :
  posts d !! id = Some post ->
  post_owner_id post = Models.id user ->
  post_accepted (Posts.apply_post_update post u) = true ->
  let o1 := Posts.update_post MediaStore urlparse_path settings imagekit
              post_accepted id u user d ms in
  let o2 := Posts.update_post MediaStore urlparse_path settings imagekit
              post_accepted id u user (Posts.db o1) ms' in
  Posts.response o2 = Posts.response o1
  /\ Posts.db o2 = Posts.db o1
  /\ Posts.delete_tasks o2 = []
  /\ Utils.calls (Posts.media o2) = []
  /\ Utils.store (Posts.media o2) = ms'.
Proof.
  intros Hrow Hown Hacc o1 o2. subst o1 o2.
  rewrite (update_post_ok MediaStore urlparse_path settings imagekit
             post_accepted id u user d ms post Hrow Hown Hacc).
  cbn [Posts.db Posts.response].
  rewrite (update_post_ok MediaStore urlparse_path settings imagekit
             post_accepted id u user _ ms' (Posts.apply_post_update post u));
    [| apply lookup_insert_eq | done | by rewrite apply_post_update_idem].
  cbn [Posts.db Posts.response Posts.delete_tasks Posts.media posts comments].
  rewrite apply_post_update_idem, insert_insert_eq.
  pose proof (changed_task_settled (upd_image_url u) (image_url post)) as Hi.
  pose proof (changed_task_settled (upd_video_url u) (video_url post)) as Hv.
  cbn [Posts.apply_post_update image_url video_url].
  rewrite Hi, Hv. simpl. done.
Qed.

Lemma update_post_retry_witness :
  let u := {| upd_title := None; upd_content := None;
              upd_image_url := Some (Some "https://ik.imagekit.io/demo/b.png");
              upd_video_url := None |} in
  let o1 := Posts.update_post Sample.media_store Sample.urlparse_path
              Sample.settings (Some Sample.imagekit) Sample.accept_post
              11 u Sample.alice Sample.database [] in
  let o2 := Posts.update_post Sample.media_store Sample.urlparse_path
              Sample.settings (Some Sample.imagekit) Sample.accept_post
              11 u Sample.alice (Posts.db o1)
              [("https://ik.imagekit.io/demo/b.png", "f2")] in
  Posts.delete_tasks o1 = ["https://ik.imagekit.io/demo/a.png"]
  /\ Posts.delete_tasks o2 = []
  /\ Utils.store (Posts.media o2) = [("https://ik.imagekit.io/demo/b.png", "f2")].
Proof.
  intros u o1 o2. split; [vm_compute; reflexivity|].
  destruct (update_post_retry Sample.media_store Sample.urlparse_path
              Sample.settings (Some Sample.imagekit) Sample.accept_post
              11 u Sample.alice Sample.database []
              [("https://ik.imagekit.io/demo/b.png", "f2")] Sample.post2)
    as (_ & _ & Ht & _ & Hs);
    [vm_compute; reflexivity | reflexivity | vm_compute; reflexivity |].
  split; [exact Ht | exact Hs].
Defined.

(** No update or delete handler can move a row to another owner or touch
    a row other than the one addressed: whatever the request and its
    outcome (the driver's refusal of the id included), every other post
    and comment is as before, except that a deleted post takes its own
    comments with it.  A row still stored under the addressed id after an
    update keeps its id and its owner (and a comment its post); a row
    still stored under the addressed id after a delete is the row stored
    before, and then nothing at all was changed. *)
Theorem mutation_frame
    (MediaStore : Type) (urlparse_path : string -> Result string)
    (settings : Utils.Settings) (imagekit : option (Utils.ImageKit MediaStore))
    (post_accepted : Post -> bool) (comment_accepted : Comment -> bool)
    (key_in_range : Z -> bool)
    (id : Z) (pu : PostUpdate) (cu : CommentUpdate) (user : User)
    (d : DB) (ms : MediaStore) :
  let up := Posts.db (Ranged.update_post MediaStore urlparse_path settings
                        imagekit post_accepted key_in_range id pu user d ms) in
  let dp := Posts.db (Ranged.delete_post MediaStore urlparse_path settings
                        imagekit key_in_range id user d ms) in
  let uc := Posts.db (Ranged.update_comment MediaStore comment_accepted
                        key_in_range id cu user d ms) in
  let dc := Posts.db (Ranged.delete_comment MediaStore key_in_range
                        id user d ms) in
  (comments up = comments d
   /\ (forall k, k <> id -> posts up !! k = posts d !! k)
   /\ (forall p', posts up !! id = Some p' ->
         exists p, posts d !! id = Some p
           /\ post_owner_id p' = post_owner_id p /\ post_id p' = post_id p))
  /\ ((forall k, k <> id -> posts dp !! k = posts d !! k)
      /\ (forall p', posts dp !! id = Some p' ->
            posts d !! id = Some p' /\ dp = d)
      /\ (forall k c, comments dp !! k = Some c -> comments d !! k = Some c)
      /\ (forall k c, comments d !! k = Some c -> comment_post_id c <> id ->
            comments dp !! k = Some c))
  /\ (posts uc = posts d
      /\ (forall k, k <> id -> comments uc !! k = comments d !! k)
      /\ (forall c', comments uc !! id = Some c' ->
            exists c, comments d !! id = Some c
              /\ comment_owner_id c' = comment_owner_id c
              /\ comment_post_id c' = comment_post_id c
              /\ comment_id c' = comment_id c))
  /\ (posts dc = posts d
      /\ (forall k, k <> id -> comments dc !! k = comments d !! k)
      /\ (forall c', comments dc !! id = Some c' ->
            comments d !! id = Some c' /\ dc = d)).
Proof.
  intros up dp uc dc. subst up dp uc dc.
  unfold Ranged.update_post, Ranged.delete_post, Ranged.update_comment,
    Ranged.delete_comment.
  destruct (key_in_range id); [| by split_and!; eauto].
  unfold Posts.update_post, Posts.delete_post, Posts.update_comment,
    Posts.delete_comment.
  split_and!.
  - destruct (posts d !! id) as [p|]; [|done].
    destruct (bool_decide _); simpl; [|done].
    by destruct (post_accepted _).
  - intros k Hk. destruct (posts d !! id) as [p|]; [|done].
    destruct (bool_decide _); simpl; [|done].
    destruct (post_accepted _); simpl; [|done]. by apply lookup_insert_ne.
  - intros p'. destruct (posts d !! id) as [p|] eqn:E; simpl; [|by rewrite E].
    destruct (bool_decide _); simpl; [|rewrite E; eauto].
    destruct (post_accepted _); simpl; [|rewrite E; eauto].
    rewrite lookup_insert_eq. intros [= <-]. eauto.
  - intros k Hk. destruct (posts d !! id) as [p|]; [|done].
    destruct (bool_decide _); simpl; [|done]. by apply lookup_delete_ne.
  - intros p'. destruct (posts d !! id) as [p|] eqn:E; simpl; [|by rewrite E].
    destruct (bool_decide _); simpl; [|by rewrite E].
    by rewrite lookup_delete_eq.
  - intros k c. destruct (posts d !! id) as [p|]; [|done].
    destruct (bool_decide _); simpl; [|done].
    intros H. by apply map_lookup_filter_Some in H as [H _].
  - intros k c Hk Hne. destruct (posts d !! id) as [p|]; [|done].
    destruct (bool_decide _); simpl; [|done].
    by apply map_lookup_filter_Some.
  - destruct (comments d !! id) as [c|]; [|done].
    destruct (bool_decide _); simpl; [|done].
    by destruct (comment_accepted _).
  - intros k Hk. destruct (comments d !! id) as [c|]; [|done].
    destruct (bool_decide _); simpl; [|done].
    destruct (comment_accepted _); simpl; [|done]. by apply lookup_insert_ne.
  - intros c'. destruct (comments d !! id) as [c|] eqn:E; simpl; [|by rewrite E].
    destruct (bool_decide _); simpl; [|rewrite E; eauto].
    destruct (comment_accepted _); simpl; [|rewrite E; eauto].
    rewrite lookup_insert_eq. intros [= <-]. eauto.
  - destruct (comments d !! id) as [c|]; [|done].
    by destruct (bool_decide _).
  - intros k Hk. destruct (comments d !! id) as [c|]; [|done].
    destruct (bool_decide _); simpl; [|done]. by apply lookup_delete_ne.
  - intros c'. destruct (comments d !! id) as [c|] eqn:E; simpl; [|by rewrite E].
    destruct (bool_decide _); simpl; [|by rewrite E].
    by rewrite lookup_delete_eq.
Qed.

(** Bob's comment after alice tried to delete it: the row, and the whole
    database, as before. *)
Example mutation_frame_rejected_delete :
  let dc := Posts.db (Ranged.delete_comment Sample.media_store
                        Fixtures.key_in_range 5 Sample.alice
                        Sample.database []) in
  comments dc !! 5 = Some Sample.comment1 /\ dc = Sample.database.
Proof. vm_compute. done. Qed.

(** ** Creating posts and comments *)

(** A created post is stored under the key the database assigned, belongs
    to the caller, and leaves every existing row in place; from then on
    another user's delete is answered 403 without effect, and the
    owner's delete removes it and schedules the non-empty media urls it
    was created with. *)
Theorem create_post_then_guard
    (MediaStore : Type) (urlparse_path : string -> Result string)
    (settings : Utils.Settings) (imagekit : option (Utils.ImageKit MediaStore))
    (post_accepted : Post -> bool) (next_post_id : DB -> Z)
    (post : Creation.PostCreate) (user other : User) (d : DB)
    (ms : MediaStore) :
  posts d !! next_post_id d = None ->
  post_accepted (Creation.new_post next_post_id post user d) = true ->
  Models.id other <> Models.id user ->
  let p := Creation.new_post next_post_id post user d in
  let r := Creation.create_post post_accepted next_post_id post user d in
  let d1 := r.2 in
  r.1 = Ok p
  /\ posts d1 !! post_id p = Some p
  /\ post_owner_id p = Models.id user
  /\ (forall k p0, posts d !! k = Some p0 -> posts d1 !! k = Some p0)
  /\ comments d1 = comments d
  /\ Spec.rejected
       (Posts.delete_post MediaStore urlparse_path settings imagekit
          (post_id p) other d1 ms)
       d1 403 "Not authorized to delete this post"
  /\ (let o := Posts.delete_post MediaStore urlparse_path settings imagekit
                 (post_id p) user d1 ms in
      Posts.response o = Ok tt
      /\ posts (Posts.db o) !! post_id p = None
      /\ Posts.delete_tasks o
         = List.filter truthy_str
             (option_list (Creation.new_image_url post)
              ++ option_list (Creation.new_video_url post))).
Proof.
  intros Hfresh Hacc Hother p r d1. subst r d1. unfold Creation.create_post.
  cbv zeta. rewrite Hacc. simpl. fold p.
  assert (Hrow : posts {| posts := <[next_post_id d := p]> (posts d);
                          comments := comments d |} !! post_id p = Some p)
    by apply lookup_insert_eq.
  split_and!; try done.
  - intros k p0 Hk. simpl. rewrite lookup_insert_ne; [done|].
    intros <-. congruence.
  - apply (post_guard_forbidden MediaStore urlparse_path settings imagekit
             post_accepted _
             {| upd_title := None; upd_content := None;
                upd_image_url := None; upd_video_url := None |} other _ ms p
             Hrow).
    simpl. congruence.
  - unfold Posts.delete_post.
    change (post_id p) with (next_post_id d) in Hrow. rewrite Hrow.
    rewrite bool_decide_eq_true_2 by done.
    cbn [negb Posts.response]. by rewrite gather_returns.
  - unfold Posts.delete_post.
    change (post_id p) with (next_post_id d) in Hrow. rewrite Hrow.
    rewrite bool_decide_eq_true_2 by done.
    cbn [negb Posts.db]. apply lookup_delete_eq.
  - unfold Posts.delete_post.
    change (post_id p) with (next_post_id d) in Hrow. rewrite Hrow.
    rewrite bool_decide_eq_true_2 by done.
    cbn [negb Posts.delete_tasks].
    by rewrite !present_task_filter, <- List.filter_app.
Qed.

Lemma create_post_then_guard_witness :
  let r := Creation.create_post Sample.accept_post Fixtures.next_post_id
             Fixtures.draft Sample.carol Sample.database in
  exists p,
    r.1 = Ok p /\ post_id p = 12 /\ post_owner_id p = 3%N
    /\ posts r.2 !! 10 = Some Sample.post1
    /\ Spec.rejected
         (Posts.delete_post Sample.media_store Sample.urlparse_path
            Sample.settings (Some Sample.imagekit) 12 Sample.alice r.2 [])
         r.2 403 "Not authorized to delete this post".
Proof.
  intros r.
  destruct (create_post_then_guard Sample.media_store Sample.urlparse_path
              Sample.settings (Some Sample.imagekit) Sample.accept_post
              Fixtures.next_post_id Fixtures.draft Sample.carol Sample.alice
              Sample.database [])
    as (Hr & _ & Ho & Hkeep & _ & Hrej & _).
  - vm_compute. reflexivity.
  - vm_compute. reflexivity.
  - discriminate.
  - eexists. split; [exact Hr|]. split; [vm_compute; reflexivity|].
    split; [exact Ho|]. split; [apply Hkeep; vm_compute; reflexivity|].
    exact Hrej.
Defined.

(** A comment can only be created on a stored post: under an id the key
    column cannot hold the request ends in the driver's error, under any
    other id that names no post it is answered 404, both without a write.
    Once created, the comment is stored under its new key for that post
    and the caller, existing rows are kept, an update or delete by any
    other user (the post's owner included) is answered 403 without
    effect, and the deletion of the post by its owner takes the comment
    with it. *)
Theorem create_comment_then_guard
    (MediaStore : Type) (urlparse_path : string -> Result string)
    (settings : Utils.Settings) (imagekit : option (Utils.ImageKit MediaStore))
    (comment_accepted : Comment -> bool) (next_comment_id : DB -> Z)
    (key_in_range : Z -> bool)
    (pid : Z) (comment : Creation.CommentCreate) (user : User) (d : DB)
    (ms : MediaStore) :
  let c := Creation.new_comment next_comment_id pid comment user d in
  let r := Ranged.create_comment_for_post comment_accepted next_comment_id
             key_in_range pid comment user d in
  let d1 := r.2 in
  (key_in_range pid = false -> r = (Raise Ranged.out_of_range, d))
  /\ (key_in_range pid = true -> posts d !! pid = None ->
      r = (Raise (HTTPException 404 "Post not found"), d))
  /\ (forall post,
        key_in_range pid = true ->
        posts d !! pid = Some post ->
        comments d !! next_comment_id d = None ->
        key_in_range (next_comment_id d) = true ->
        comment_accepted c = true ->
        r.1 = Ok c
        /\ comments d1 !! comment_id c = Some c
        /\ comment_owner_id c = Models.id user /\ comment_post_id c = pid
        /\ posts d1 = posts d
        /\ (forall k c0, comments d !! k = Some c0 -> comments d1 !! k = Some c0)
        /\ (forall other cu,
              Models.id other <> Models.id user ->
              Spec.rejected
                (Ranged.update_comment MediaStore comment_accepted key_in_range
                   (comment_id c) cu other d1 ms)
                d1 403 "Not authorized to update this comment"
              /\ Spec.rejected
                   (Ranged.delete_comment MediaStore key_in_range
                      (comment_id c) other d1 ms)
                   d1 403 "Not authorized to delete this comment")
        /\ (forall owner,
              post_owner_id post = Models.id owner ->
              comments (Posts.db (Ranged.delete_post MediaStore urlparse_path
                                    settings imagekit key_in_range pid owner
                                    d1 ms)) !! comment_id c = None)).
Proof.
  intros c r d1. subst r d1. unfold Ranged.create_comment_for_post.
  split; [by intros ->|]. split.
  { intros -> Hnone. unfold Creation.create_comment_for_post. by rewrite Hnone. }
  intros post Hpid Hpost Hfresh Hkey Hacc. rewrite Hpid.
  set (d1 := {| posts := posts d;
                comments := <[comment_id c := c]> (comments d) |}).
  assert (Hr : Creation.create_comment_for_post comment_accepted
                 next_comment_id pid comment user d = (Ok c, d1)).
  { unfold Creation.create_comment_for_post. rewrite Hpost. cbv zeta.
    fold c. by rewrite Hacc. }
  rewrite Hr. cbn [fst snd].
  assert (Hrow : comments d1 !! comment_id c = Some c) by apply lookup_insert_eq.
  split_and!; try done.
  - intros k c0 Hk. unfold d1. simpl. rewrite lookup_insert_ne; [done|].
    intros <-. simpl in Hk. congruence.
  - intros other cu Hother.
    unfold Ranged.update_comment, Ranged.delete_comment.
    change (comment_id c) with (next_comment_id d) at 1 3. rewrite Hkey.
    apply (comment_guard_forbidden MediaStore comment_accepted _ cu other d1 ms
             c Hrow).
    simpl. congruence.
  - intros owner Hown. unfold Ranged.delete_post. rewrite Hpid.
    rewrite (delete_post_db MediaStore urlparse_path settings imagekit pid
               owner d1 ms post); [|done..].
    destruct (comments (Posts.delete_post_row pid d1) !! comment_id c)
      as [c'|] eqn:E; [|done].
    apply delete_post_row_comments in E as [E Hne].
    rewrite Hrow in E. injection E as <-. by destruct Hne.
Qed.

Lemma create_comment_then_guard_witness :
  let draft := {| Creation.new_comment_content := "second" |} in
  let create pid :=
    Ranged.create_comment_for_post Sample.accept_comment
      Fixtures.next_comment_id Fixtures.key_in_range pid draft Sample.carol
      Sample.database in
  let r := create 10 in
  create 9223372036854775808 = (Raise Ranged.out_of_range, Sample.database)
  /\ create 12 = (Raise (HTTPException 404 "Post not found"), Sample.database)
  /\ exists c,
       r.1 = Ok c /\ comment_id c = 6 /\ comment_owner_id c = 3%N
       /\ comments r.2 !! 5 = Some Sample.comment1
       /\ Spec.rejected
            (Ranged.update_comment Sample.media_store Sample.accept_comment
               Fixtures.key_in_range 6
               {| upd_comment_content := Some (Some "edited") |}
               Sample.bob r.2 [])
            r.2 403 "Not authorized to update this comment"
       /\ comments (Posts.db (Ranged.delete_post Sample.media_store
                                Sample.urlparse_path Sample.settings
                                (Some Sample.imagekit) Fixtures.key_in_range
                                10 Sample.alice r.2 [])) !! 6 = None.
Proof.
  intros draft create r.
  split_and!.
  - apply (create_comment_then_guard Sample.media_store Sample.urlparse_path
             Sample.settings (Some Sample.imagekit) Sample.accept_comment
             Fixtures.next_comment_id Fixtures.key_in_range
             9223372036854775808 draft Sample.carol Sample.database []).
    reflexivity.
  - apply (create_comment_then_guard Sample.media_store Sample.urlparse_path
             Sample.settings (Some Sample.imagekit) Sample.accept_comment
             Fixtures.next_comment_id Fixtures.key_in_range
             12 draft Sample.carol Sample.database []).
    + reflexivity.
    + vm_compute. reflexivity.
  - destruct (create_comment_then_guard Sample.media_store Sample.urlparse_path
                Sample.settings (Some Sample.imagekit) Sample.accept_comment
                Fixtures.next_comment_id Fixtures.key_in_range
                10 draft Sample.carol Sample.database [])
      as (_ & _ & H).
    destruct (H Sample.post1) as (Hr & _ & Ho & _ & _ & Hkeep & Hrej & Hdel);
      try (vm_compute; reflexivity).
    eexists. split; [exact Hr|]. split; [vm_compute; reflexivity|].
    split; [exact Ho|]. split; [apply Hkeep; vm_compute; reflexivity|].
    split.
    + apply (Hrej Sample.bob). discriminate.
    + apply (Hdel Sample.alice). reflexivity.
Defined.

(** ** E-mail verification, continued *)

Section MoreVerifyFacts.
Import App Spec.

Variable jwt_decode : string -> string -> string -> Z -> Result (gmap string json).
Variable UUID_parse : string -> option UUID.
Variable JWT_SECRET : string.

Let verify := verify_email_get jwt_decode UUID_parse JWT_SECRET.

(** Either nothing is written, or exactly one stored, unverified row is
    rewritten with the flag set. *)
Lemma verify_effect token now users :
  (exists page, verify token now users = (page, users, [])
                /\ forall e, page <> EmailVerified e)
  \/ (exists uid user,
        users !! uid = Some user /\ is_verified user = false
        /\ verify token now users
           = (EmailVerified (email user),
              <[id user := set_is_verified user true]> users,
              [UpdateIsVerified (id user) true])).
Proof.
  destruct (jwt_decode token JWT_SECRET "fastapi-users:verify" now)
    as [payload|e] eqn:Hd.
  - destruct (verify_decode_ok jwt_decode UUID_parse JWT_SECRET token now users
                payload Hd) as [(uid & user & Hn) | (e & Hf)].
    + pose proof (verify_known_user jwt_decode UUID_parse JWT_SECRET token now
                    users payload uid user Hd Hn) as Hv.
      destruct Hn as (s & _ & _ & _ & Hu).
      destruct (is_verified user) eqn:Hver.
      * left. eexists. split; [exact Hv | done].
      * right. by exists uid, user.
    + left. eexists. split; [exact Hf | done].
  - left. eexists. split.
    + apply (verify_decode_raises jwt_decode UUID_parse JWT_SECRET token now
               users e Hd).
    + intros e'. unfold verify_except.
      by destruct (is_ExpiredSignatureError e), (is_InvalidTokenError e).
Qed.

End MoreVerifyFacts.

(** Whatever token is redeemed, the user table keeps its rows: none is
    added or removed, a row changes in nothing but [is_verified], that
    flag never goes back to false, at most one write is issued, and none
    unless the success page is rendered. *)
Theorem verify_preserves_users
    (jwt_decode : string -> string -> string -> Z -> Result (gmap string App.json))
    (UUID_parse : string -> option UUID) (JWT_SECRET : string)
    (token : string) (now : Z) (users : gmap UUID User) :
  Spec.users_wf users ->
  let r := App.verify_email_get jwt_decode UUID_parse JWT_SECRET token now
             users in
  Spec.users_wf r.1.2
  /\ (forall k, r.1.2 !! k = None <-> users !! k = None)
  /\ (forall k u, users !! k = Some u ->
        exists u', r.1.2 !! k = Some u'
          /\ (u' = u \/ (is_verified u = false
                         /\ u' = App.set_is_verified u true)))
  /\ (length r.2 <= 1)%nat
  /\ ((forall e, r.1.1 <> App.EmailVerified e) -> r.1.2 = users /\ r.2 = []).
Proof.
  intros Hwf r. subst r.
  destruct (verify_effect jwt_decode UUID_parse JWT_SECRET token now users)
    as [(page & -> & Hpage) | (uid & user & Hu & Hver & ->)]; simpl.
  - split_and!; try done; [eauto | lia].
  - rewrite (Hwf _ _ Hu). split_and!.
    + intros k u. rewrite lookup_insert. case_decide; subst.
      * intros [= <-]. simpl. by apply Hwf.
      * apply Hwf.
    + intros k. rewrite lookup_insert. case_decide; subst; [|done].
      split; [done | congruence].
    + intros k u Hk. rewrite lookup_insert. case_decide; subst.
      * rewrite Hu in Hk. injection Hk as <-. eauto.
      * eauto.
    + lia.
    + intros H. by destruct (H (email user)).
Qed.

Lemma verify_preserves_users_witness :
  let r := App.verify_email_get Sample.jwt_decode Sample.UUID_parse "secret"
             "3" 100 Sample.users in
  r.1.2 !! 1%N = Some Sample.alice
  /\ r.1.2 !! 4%N = None
  /\ (length r.2 <= 1)%nat.
Proof.
  intros r.
  assert (Hwf : Spec.users_wf Sample.users).
  { intros k u. unfold Sample.users.
    rewrite !lookup_insert. repeat case_decide; subst; try done;
      intros [= <-]; reflexivity. }
  destruct (verify_preserves_users Sample.jwt_decode Sample.UUID_parse
              "secret" "3" 100 Sample.users Hwf) as (_ & Hnone & Hkeep & Hlen & _).
  fold r in Hnone, Hkeep, Hlen. split_and!.
  - destruct (Hkeep 1%N Sample.alice) as (u' & Hu' & [-> | [Hf _]]);
      [vm_compute; reflexivity | exact Hu' | discriminate Hf].
  - apply Hnone. vm_compute. reflexivity.
  - exact Hlen.
Defined.

(** A token that decodes but carries no usable subject (missing, null,
    empty, not a string, or not an id) gets the verification-failed page
    with the exception raised for it, never an HTTP error, and nothing is
    written. *)
Theorem verify_bad_subject
    (jwt_decode : string -> string -> string -> Z -> Result (gmap string App.json))
    (UUID_parse : string -> option UUID) (JWT_SECRET : string)
    (token : string) (now : Z) (users : gmap UUID User)
    (payload : gmap string App.json) :
  jwt_decode token JWT_SECRET "fastapi-users:verify" now = Ok payload ->
  let r := App.verify_email_get jwt_decode UUID_parse JWT_SECRET token now
             users in
  (App.json_truthy (payload !! "sub") = false ->
     r = (App.VerificationFailed
            (HTTPException 400 "Invalid token: missing user ID"), users, []))
  /\ (forall s, payload !! "sub" = Some (App.JStr s) -> s <> "" ->
        UUID_parse s = None ->
        r = (App.VerificationFailed
               (ValueError "badly formed hexadecimal UUID string"), users, []))
  /\ (forall v, payload !! "sub" = Some v ->
        App.json_truthy (Some v) = true ->
        (forall s, v <> App.JStr s) ->
        r = (App.VerificationFailed (AttributeError "replace"), users, [])).
Proof.
  intros Hd r. subst r. unfold App.verify_email_get, App.verify_try.
  rewrite Hd. split_and!.
  - by intros ->.
  - intros s -> Hs%truthy_str_true Hp. simpl. by rewrite Hs, Hp.
  - intros v -> Ht Hv. rewrite Ht. simpl.
    destruct v; try done. by destruct (Hv s).
Qed.

Lemma verify_bad_subject_witness :
  App.verify_email_get Sample.jwt_decode Sample.UUID_parse "secret"
    "not-an-id" 100 Sample.users
  = (App.VerificationFailed (ValueError "badly formed hexadecimal UUID string"),
     Sample.users, []).
Proof.
  destruct (verify_bad_subject Sample.jwt_decode Sample.UUID_parse "secret"
              "not-an-id" 100 Sample.users {[ "sub" := App.JStr "not-an-id" ]})
    as (_ & H & _).
  - vm_compute. reflexivity.
  - apply (H "not-an-id"); [vm_compute; reflexivity | discriminate
                           | vm_compute; reflexivity].
Defined.

(** ** Login and refresh, continued *)

Section MoreAuthFacts.
Import App Spec.

Variable JWT_SECRET : string.
Variable ENVIRONMENT : string.

Let access := get_access_token_strategy JWT_SECRET.
Let refresh := get_refresh_token_strategy JWT_SECRET.
Let refresh_token := refresh_token JWT_SECRET ENVIRONMENT.

(** What [read_token] makes of a token either strategy wrote. *)
Lemma jwt_read_written lifetime t0 t_read (user0 : User) users :
  jwt_read_token JWT_SECRET t_read
    (jwt_write_token JWT_SECRET lifetime t0 user0) users
  = if (t0 + lifetime <=? t_read)%Z then None else users !! id user0.
Proof.
  unfold jwt_read_token, jwt_write_token, jwt_expired.
  rewrite bool_decide_eq_true_2 by done. cbn [negb exp sub aud].
  destruct (t0 + lifetime <=? t_read)%Z; [done|].
  unfold jwt_audience_ok, token_audience. cbn [aud existsb].
  rewrite bool_decide_eq_true_2 by (apply list_elem_of_here). done.
Qed.

(** The exchange of a token either strategy wrote, spelled out. *)
Lemma refresh_written lifetime t0 (user0 : User) t_read t_access t_refresh users :
  refresh_token (Some (jwt_write_token JWT_SECRET lifetime t0 user0))
    t_read t_access t_refresh users
  = match (if (t0 + lifetime <=? t_read)%Z then None else users !! id user0) with
    | Some user =>
        if is_active user then
          (Ok (write_token access t_access user, "bearer"),
           Some (refresh_cookie ENVIRONMENT (write_token refresh t_refresh user)))
        else
          (Raise (HTTPException 401
             "Invalid or expired refresh token. Please login again."), None)
    | None =>
        (Raise (HTTPException 401
           "Invalid or expired refresh token. Please login again."), None)
    end.
Proof.
  unfold refresh_token, App.refresh_token, refresh_try.
  unfold jwt_write_token at 1. cbn [token_falsy].
  unfold get_refresh_token_strategy at 1. unfold JWTStrategy at 1.
  cbn [read_token]. fold (jwt_write_token JWT_SECRET lifetime t0 user0).
  rewrite jwt_read_written.
  destruct (if (t0 + lifetime <=? t_read)%Z then None else users !! id user0)
    as [user|]; [|done].
  by destruct (is_active user).
Qed.

End MoreAuthFacts.

(** A failed exchange is always a 401 without cookie, with one of two
    details: "not found" exactly when no (or an empty) cookie was sent, and
    otherwise the generic "invalid or expired" one; the detail raised
    inside the handler for an unknown or inactive user never reaches the
    client. *)
Theorem refresh_failure_shape
    (JWT_SECRET ENVIRONMENT : string) (cookie : option App.TokenString)
    (t_read t_access t_refresh : Z) (users : gmap UUID User) :
  let r := App.refresh_token JWT_SECRET ENVIRONMENT cookie t_read t_access
             t_refresh users in
  let absent := match cookie with
                | None => true
                | Some t => App.token_falsy t
                end in
  (exists body c, r = (Ok body, Some c) /\ absent = false)
  \/ (r = (Raise (HTTPException 401
                    "Refresh token not found. Please login again."), None)
      /\ absent = true)
  \/ (r = (Raise (HTTPException 401
                    "Invalid or expired refresh token. Please login again."),
           None)
      /\ absent = false).
Proof.
  unfold App.refresh_token, App.refresh_try.
  destruct cookie as [t|]; [|right; left; done].
  destruct (App.token_falsy t); [right; left; done|].
  destruct (App.read_token (App.get_refresh_token_strategy JWT_SECRET)
              t_read t users) as [user|]; [|right; right; done].
  destruct (is_active user); [|right; right; done].
  left. by eexists _, _.
Qed.

(** The refresh cookie set by a successful login can be exchanged, for the
    user it was issued to, at any time before its seven days are over, as
    long as that user is still stored and active; from the expiry instant
    on, or once the user is deactivated or deleted, the exchange is
    answered 401 and sets no cookie. *)
Theorem login_refresh_round_trip
    (JWT_SECRET ENVIRONMENT : string)
    (get_by_email : gmap UUID User -> string -> option User)
    (verify_and_update : string -> string -> bool * option string)
    (username password : string) (t_access t_refresh : Z)
    (users : gmap UUID User) (body : App.TokenString * string)
    (c : App.Cookie) :
  let o := App.login JWT_SECRET ENVIRONMENT get_by_email verify_and_update
             username password t_access t_refresh users in
  App.auth_response o = Ok body ->
  App.auth_cookie o = Some c ->
  exists u,
    get_by_email users username = Some u
    /\ forall t_read t_access' t_refresh' (users' : gmap UUID User),
         let r := App.refresh_token JWT_SECRET ENVIRONMENT
                    (Some (App.cookie_value c)) t_read t_access' t_refresh'
                    users' in
         let denied :=
           (Raise (HTTPException 401
              "Invalid or expired refresh token. Please login again."), None) in
         (forall u', t_read < t_refresh + 604800 ->
            users' !! id u = Some u' -> is_active u' = true ->
            r = (Ok (App.write_token (App.get_access_token_strategy JWT_SECRET)
                       t_access' u', "bearer"),
                 Some (App.refresh_cookie ENVIRONMENT
                         (App.write_token
                            (App.get_refresh_token_strategy JWT_SECRET)
                            t_refresh' u'))))
         /\ (t_refresh + 604800 <= t_read -> r = denied)
         /\ (users' !! id u = None -> r = denied)
         /\ (forall u', users' !! id u = Some u' -> is_active u' = false ->
               r = denied).
Proof.
  intros o Hbody Hc.
  destruct (login_cases JWT_SECRET ENVIRONMENT get_by_email verify_and_update
              username password t_access t_refresh users)
    as [([Hr _] & _) | (u & body0 & c0 & Hu & Hv & Ha & _)];
    [fold o in Hr; congruence|].
  exists u. split; [done|].
  assert (Hval : App.cookie_value c
                 = App.jwt_write_token JWT_SECRET 604800 t_refresh u).
  { subst o. unfold App.login, App.authenticate in Hc. rewrite Hu in Hc.
    destruct (verify_and_update password (hashed_password u)) as [[] [h|]];
      simpl in Hv, Hc; try done; rewrite Ha in Hc; simpl in Hc;
      by injection Hc as <-. }
  intros t_read t_access' t_refresh' users' r denied. subst r denied.
  rewrite Hval, refresh_written. split_and!.
  - intros u' Hlt Hu' Ha'.
    destruct (Z.leb_spec (t_refresh + 604800) t_read); [lia|].
    by rewrite Hu', Ha'.
  - intros Hle. destruct (Z.leb_spec (t_refresh + 604800) t_read); [done|lia].
  - intros ->. by destruct (_ <=? _)%Z.
  - intros u' -> Ha'. destruct (_ <=? _)%Z; [done|]. by rewrite Ha'.
Qed.

Lemma login_refresh_round_trip_witness :
  let o := App.login "secret" "production" Sample.get_by_email
             Sample.verify_and_update "alice@example.com" "alice"
             1000 1000 Sample.users in
  exists c,
    App.auth_cookie o = Some c
    /\ (exists body c',
          App.refresh_token "secret" "production" (Some (App.cookie_value c))
            5000 5000 5000 Sample.users = (Ok body, Some c'))
    /\ App.refresh_token "secret" "production" (Some (App.cookie_value c))
         605800 605800 605800 Sample.users
       = (Raise (HTTPException 401
            "Invalid or expired refresh token. Please login again."), None).
Proof.
  intros o.
  pose (c := App.refresh_cookie "production"
               (App.jwt_write_token "secret" 604800 1000 Sample.alice)).
  pose (body := (App.jwt_write_token "secret" 900 1000 Sample.alice, "bearer")).
  destruct (login_refresh_round_trip "secret" "production" Sample.get_by_email
              Sample.verify_and_update "alice@example.com" "alice" 1000 1000
              Sample.users body c) as (u & Hu & H);
    [vm_compute; reflexivity | vm_compute; reflexivity |].
  vm_compute in Hu. injection Hu as <-.
  exists c. split; [vm_compute; reflexivity|]. split.
  - destruct (H 5000 5000 5000 Sample.users) as (Hok & _).
    eexists _, _. apply (Hok Sample.alice); [lia | vm_compute; reflexivity..].
  - destruct (H 605800 605800 605800 Sample.users) as (_ & Hexp & _).
    apply Hexp. lia.
Defined.

(** The refresh route also takes an access token: both strategies share
    the secret and the audience, so the access token returned by a login,
    sent as the refresh cookie within its fifteen minutes, is exchanged
    for a new pair like a refresh token. *)
Theorem refresh_accepts_access_token
    (JWT_SECRET ENVIRONMENT : string)
    (t0 t_read t_access t_refresh : Z) (user0 user : User)
    (users : gmap UUID User) :
  t_read < t0 + 900 ->
  users !! id user0 = Some user ->
  is_active user = true ->
  let access := App.get_access_token_strategy JWT_SECRET in
  let refresh := App.get_refresh_token_strategy JWT_SECRET in
  App.refresh_token JWT_SECRET ENVIRONMENT
    (Some (App.write_token access t0 user0)) t_read t_access t_refresh users
  = (Ok (App.write_token access t_access user, "bearer"),
     Some (App.refresh_cookie ENVIRONMENT
             (App.write_token refresh t_refresh user))).
Proof.
  intros Hlt Hu Ha access refresh. subst access refresh.
  change (App.write_token (App.get_access_token_strategy JWT_SECRET) t0 user0)
    with (App.jwt_write_token JWT_SECRET 900 t0 user0).
  rewrite refresh_written.
  destruct (Z.leb_spec (t0 + 900) t_read); [lia|]. by rewrite Hu, Ha.
Qed.

Lemma refresh_accepts_access_token_witness :
  exists body c,
    App.refresh_token "secret" "production"
      (Some (App.write_token (App.get_access_token_strategy "secret")
               1000 Sample.alice))
      1500 1500 1500 Sample.users
    = (Ok body, Some c).
Proof.
  eexists _, _.
  apply (refresh_accepts_access_token "secret" "production" 1000 1500 1500 1500
           Sample.alice Sample.alice Sample.users);
    [lia | vm_compute; reflexivity | reflexivity].
Defined.

(** A login succeeds exactly for a known e-mail whose password verifies
    and whose user is active; it then answers a bearer access token
    expiring after 900 seconds and sets the refresh token, expiring after
    seven days, in an http-only, same-site-lax cookie that is marked
    secure exactly in production. *)
Theorem login_success
    (JWT_SECRET ENVIRONMENT : string)
    (get_by_email : gmap UUID User -> string -> option User)
    (verify_and_update : string -> string -> bool * option string)
    (username password : string) (t_access t_refresh : Z)
    (users : gmap UUID User) :
  let o := App.login JWT_SECRET ENVIRONMENT get_by_email verify_and_update
             username password t_access t_refresh users in
  ((exists body, App.auth_response o = Ok body)
   <-> exists u, get_by_email users username = Some u
         /\ (verify_and_update password (hashed_password u)).1 = true
         /\ is_active u = true)
  /\ (forall body, App.auth_response o = Ok body ->
        exists u c,
          get_by_email users username = Some u
          /\ body = (App.Compact JWT_SECRET
                       {| App.sub := Some (id u);
                          App.aud := App.token_audience;
                          App.exp := Some (t_access + 900) |}, "bearer")
          /\ App.auth_cookie o = Some c
          /\ App.cookie_key c = "refresh_token"
          /\ App.cookie_value c
             = App.Compact JWT_SECRET
                 {| App.sub := Some (id u);
                    App.aud := App.token_audience;
                    App.exp := Some (t_refresh + 604800) |}
          /\ App.max_age c = 604800
          /\ App.httponly c = true
          /\ App.samesite c = "lax"
          /\ (App.secure c = true <-> ENVIRONMENT = "production")).
Proof.
  intros o. subst o. unfold App.login, App.authenticate.
  destruct (get_by_email users username) as [u|] eqn:Hu; simpl.
  2:{ split; [split; [intros [? ?]; done | intros (? & ? & _); done]
             | intros ? ?; done]. }
  destruct (verify_and_update password (hashed_password u)) as [[] [h|]] eqn:Hv;
    simpl;
    try (split; [split; [intros [? ?]; done
                        | intros (u0 & [= <-] & Hv0 & _); rewrite Hv in Hv0; done]
                | intros ? ?; done]);
    (destruct (is_active u) eqn:Ha; simpl;
     [ split;
       [ split; [intros _; exists u; rewrite Hv; done | eauto]
       | intros body [= <-]; eexists u, _;
         split_and!; try reflexivity; apply bool_decide_eq_true ]
     | split; [split; [intros [? ?]; done
                      | intros (u0 & [= <-] & _ & Ha0); congruence]
              | intros ? ?; done] ]).
Qed.

(** ** The admin session, continued *)

Section AdminFacts.
Import AdminAuthBackend.

Variable UUID_parse : string -> option UUID.
Variable UUID_str : UUID -> string.
Variable verify_and_update :
  option string -> string -> Result (bool * option string).

Lemma users_with_email_stored users username u l :
  users_with_email users username = u :: l ->
  exists e k, username = Some e /\ users !! k = Some u /\ email u = e.
Proof.
  unfold users_with_email. destruct username as [e|]; [|done].
  intros H.
  assert (Hin : u ∈ filter (fun u => email u = e) (map_to_list users).*2)
    by (rewrite H; apply list_elem_of_here).
  apply list_elem_of_filter in Hin as [He Hin].
  apply list_elem_of_fmap in Hin as ([k u'] & -> & Hin).
  apply elem_of_map_to_list in Hin. by exists e, k.
Qed.

(** The two ways out of [login] that return. *)
Lemma admin_login_cases form session users :
  let r := login UUID_str verify_and_update form session users in
  (exists e k user h,
     form !! "username" = Some e /\ users !! k = Some user /\ email user = e
     /\ verify_and_update (form !! "password") (hashed_password user)
        = Ok (true, h)
     /\ is_active user = true /\ is_superuser user = true
     /\ r = (Ok true,
             <["user_email" := email user]>
               (<["user_id" := UUID_str (id user)]> session)))
  \/ (r.1 <> Ok true /\ r.2 = session).
Proof.
  unfold login.
  destruct (users_with_email users (form !! "username")) as [|user [|u2 l]]
    eqn:Hq; simpl; [by right | | by right].
  destruct (users_with_email_stored _ _ _ _ Hq) as (e & k & He & Hk & Hem).
  destruct (verify_and_update (form !! "password") (hashed_password user))
    as [[[] h]|ex] eqn:Hv; simpl; [| by right | by right].
  destruct (is_active user) eqn:Ha, (is_superuser user) eqn:Hs; simpl;
    [| by right..].
  left. by exists e, k, user, h.
Qed.

End AdminFacts.

(** The admin login answers true only for a stored user whose e-mail is
    the submitted username, whose password verifies and who is active and
    superuser; it then records that user's id and e-mail in the session,
    keeping its other entries.  In every other case the session is left
    exactly as it was. *)
Theorem admin_login_sound
    (UUID_str : UUID -> string)
    (verify_and_update : option string -> string -> Result (bool * option string))
    (form session : gmap string string) (users : gmap UUID User) :
  let r := AdminAuthBackend.login UUID_str verify_and_update form session
             users in
  (r.1 = Ok true ->
     exists e k user h,
       form !! "username" = Some e /\ users !! k = Some user
       /\ email user = e
       /\ verify_and_update (form !! "password") (hashed_password user)
          = Ok (true, h)
       /\ is_active user = true /\ is_superuser user = true
       /\ r.2 !! "user_id" = Some (UUID_str (id user))
       /\ r.2 !! "user_email" = Some e
       /\ (forall key, key <> "user_id" -> key <> "user_email" ->
             r.2 !! key = session !! key))
  /\ (r.1 <> Ok true -> r.2 = session).
Proof.
  intros r. subst r.
  destruct (admin_login_cases UUID_str verify_and_update form session users)
    as [(e & k & user & h & He & Hk & Hem & Hv & Ha & Hs & ->) | [Hne Hs]].
  - split; [|done]. intros _. exists e, k, user, h. simpl.
    split_and!; try done.
    + by rewrite lookup_insert_ne, lookup_insert_eq.
    + by rewrite lookup_insert_eq, Hem.
    + intros key H1 H2. by rewrite !lookup_insert_ne.
  - split; [done | by intros _].
Qed.

Lemma admin_login_sound_witness :
  let form : gmap string string :=
    <["username" := "alice@example.com"]> (<["password" := "alice"]> ∅) in
  let r := AdminAuthBackend.login Fixtures.UUID_str Fixtures.admin_verify form
             ∅ Sample.users in
  r.1 = Ok true /\ r.2 !! "user_id" = Some "1".
Proof.
  intros form r.
  assert (Hr : r.1 = Ok true) by (vm_compute; reflexivity).
  split; [exact Hr|].
  destruct (admin_login_sound Fixtures.UUID_str Fixtures.admin_verify form ∅
              Sample.users) as [H _].
  destruct (H Hr) as (e & k & user & h & _ & Hk & _ & _ & _ & _ & Hid & _).
  vm_compute. reflexivity.
Defined.

(** A session written by a successful admin login passes [authenticate]
    untouched as long as the user is still stored, active and superuser,
    on the table of the login and on every later one; once the user is
    deleted, deactivated or demoted, the next
    [authenticate] refuses and empties the session, after which it stays
    refused even if the privilege comes back; and [logout] leaves a
    session that is refused. *)
Theorem admin_session_lifecycle
    (UUID_parse : string -> option UUID) (UUID_str : UUID -> string)
    (verify_and_update : option string -> string -> Result (bool * option string))
    (form session session1 : gmap string string) (users : gmap UUID User) :
  (forall k u, users !! k = Some u ->
     UUID_parse (UUID_str (id u)) = Some (id u) /\ UUID_str (id u) <> "") ->
  Spec.users_wf users ->
  AdminAuthBackend.login UUID_str verify_and_update form session users
  = (Ok true, session1) ->
  exists uid,
    session1 !! "user_id" = Some (UUID_str uid)
    /\ AdminAuthBackend.authenticate UUID_parse session1 users
       = (Ok true, session1)
    /\ (forall users' u',
          users' !! uid = Some u' ->
          is_active u' = true -> is_superuser u' = true ->
          AdminAuthBackend.authenticate UUID_parse session1 users'
          = (Ok true, session1))
    /\ (forall users',
          users' !! uid = None
          \/ (exists u', users' !! uid = Some u'
                /\ (is_active u' = false \/ is_superuser u' = false)) ->
          AdminAuthBackend.authenticate UUID_parse session1 users'
          = (Ok false, ∅))
    /\ (forall users',
          AdminAuthBackend.authenticate UUID_parse ∅ users' = (Ok false, ∅))
    /\ (forall users',
          AdminAuthBackend.authenticate UUID_parse
            (AdminAuthBackend.logout session1).2 users' = (Ok false, ∅)).
Proof.
  intros Hids Hwf Hlogin.
  destruct (admin_login_cases UUID_str verify_and_update form session users)
    as [(e & k & user & h & He & Hk & Hem & Hv & Ha & Hs & Hr) | [Hbad _]];
    [| rewrite Hlogin in Hbad; done].
  rewrite Hlogin in Hr. injection Hr as ->.
  destruct (Hids _ _ Hk) as [Hrt Hne].
  assert (Hid : (<["user_email" := email user]>
                   (<["user_id" := UUID_str (id user)]> session)
                 : gmap string string) !! "user_id"
                = Some (UUID_str (id user)))
    by (by rewrite lookup_insert_ne, lookup_insert_eq).
  assert (Htruthy : truthy_str (UUID_str (id user)) = true)
    by (by apply truthy_str_true).
  exists (id user). split; [exact Hid|].
  unfold AdminAuthBackend.authenticate, AdminAuthBackend.logout.
  rewrite Hid, Htruthy, Hrt. cbn [negb snd].
  split_and!.
  - rewrite <- (Hwf _ _ Hk) in Hk. by rewrite Hk, Ha, Hs.
  - intros users' u' -> -> ->. done.
  - intros users' [-> | (u' & -> & [-> | ->])]; [done | done |].
    by rewrite orb_true_r.
  - intros users'. by rewrite lookup_empty.
  - intros users'. by rewrite lookup_empty.
Qed.

Lemma admin_session_lifecycle_witness :
  let session1 : gmap string string :=
    <["user_email" := "alice@example.com"]> (<["user_id" := "1"]> ∅) in
  AdminAuthBackend.authenticate Sample.UUID_parse session1 Sample.users
  = (Ok true, session1)
  /\ AdminAuthBackend.authenticate Sample.UUID_parse session1
       (delete 2%N Sample.users) = (Ok true, session1)
  /\ AdminAuthBackend.authenticate Sample.UUID_parse session1
       (delete 1%N Sample.users) = (Ok false, ∅).
Proof.
  intros session1.
  pose (form := (<["username" := "alice@example.com"]>
                   (<["password" := "alice"]> ∅) : gmap string string)).
  assert (Hwf : Spec.users_wf Sample.users).
  { intros k u. unfold Sample.users.
    rewrite !lookup_insert. repeat case_decide; subst; try done;
      intros [= <-]; reflexivity. }
  assert (Hids : forall k u, Sample.users !! k = Some u ->
            Sample.UUID_parse (Fixtures.UUID_str (id u)) = Some (id u)
            /\ Fixtures.UUID_str (id u) <> "").
  { intros k u. unfold Sample.users.
    rewrite !lookup_insert. repeat case_decide; subst; try done;
      intros [= <-]; split; vm_compute; (reflexivity || discriminate). }
  destruct (admin_session_lifecycle Sample.UUID_parse Fixtures.UUID_str
              Fixtures.admin_verify form ∅ session1 Sample.users Hids Hwf)
    as (uid & Hid & Hok & Hlater & Hgone & _).
  - vm_compute. reflexivity.
  - split; [exact Hok|].
    assert (H1 : session1 !! "user_id" = Some "1") by (vm_compute; reflexivity).
    rewrite H1 in Hid. injection Hid as Hid.
    assert (uid = 1%N) as ->.
    { revert Hid. unfold Fixtures.UUID_str. repeat case_decide; subst;
        (reflexivity || discriminate). }
    split.
    + apply (Hlater _ Sample.alice); [|reflexivity..].
      rewrite lookup_delete_ne by discriminate. vm_compute. reflexivity.
    + apply Hgone. left. apply lookup_delete_eq.
Defined.

(** ** The verification mail *)

(** The registration hook returns normally whatever the validation of
    the address and the mail transport do.  The only message it ever hands
    to the transport carries the fixed subject, the user's display name,
    the token signed for that user, and as its single recipient the
    validated form of the user's own address; nothing is handed over when
    the address is refused.  A message counts as sent only if the
    transport accepted it, and a transport failure is logged as an
    error. *)
Theorem on_after_register_never_fails
    (jwt_encode : gmap string App.json -> string -> string)
    (UUID_str : UUID -> string)
    (validate_recipient : string -> Result string)
    (send_message : Manager.Message -> Result unit)
    (JWT_SECRET : string) (user : User) (now : Z) :
  let r := Manager.on_after_register jwt_encode UUID_str validate_recipient
             send_message JWT_SECRET user now in
  let message_to (recipient : string) :=
    {| Manager.subject := "Verify Your Email Address";
       Manager.recipients := [recipient];
       Manager.html_name := Manager.display_name user;
       Manager.html_token :=
         Manager.verification_token jwt_encode UUID_str JWT_SECRET user now |} in
  r.1.1 = Ok tt
  /\ (forall m, In m r.1.2 ->
        exists recipient,
          validate_recipient (email user) = Ok recipient
          /\ m = message_to recipient
          /\ Manager.recipients m = [recipient]
          /\ Manager.html_token m
             = jwt_encode (Manager.token_data UUID_str user now) JWT_SECRET
          /\ send_message m = Ok tt
          /\ r.1.2 = [m])
  /\ (forall e, validate_recipient (email user) = Raise e ->
        r.1.2 = [] /\ r.2 = [])
  /\ (forall recipient, validate_recipient (email user) = Ok recipient ->
        (send_message (message_to recipient) = Ok tt ->
           r.1.2 = [message_to recipient]
           /\ r.2 = [Manager.InfoSending (email user);
                     Manager.SuccessSent (email user)])
        /\ (forall e, send_message (message_to recipient) = Raise e ->
              r.1.2 = []
              /\ r.2 = [Manager.InfoSending (email user);
                        Manager.ErrorSending (email user) e])).
Proof.
  intros r message_to. subst r.
  unfold Manager.on_after_register, Manager.manager_send_verification_email,
    Manager.send_verification_email.
  destruct (validate_recipient (email user)) as [recipient|e]; cbv zeta.
  - fold (message_to recipient).
    destruct (send_message (message_to recipient)) as [[]|e] eqn:Hs; simpl.
    + split; [done|]. split.
      { intros m [<- | []]. exists recipient. by split_and!. }
      split; [done|]. intros ? [= <-]. rewrite Hs.
      split; [done | intros e'; done].
    + split; [done|]. split; [intros m []|].
      split; [done|]. intros ? [= <-]. rewrite Hs.
      split; [done | by intros e' [= <-]].
  - simpl. split; [done|]. split; [intros m []|]. split; [done | done].
Qed.

(** With the mail fixtures the registration of carol hands the transport
    one message, addressed to carol alone and carrying her token. *)
Example on_after_register_carol :
  let r := Manager.on_after_register Fixtures.jwt_encode Fixtures.UUID_str
             Fixtures.validate_recipient Fixtures.send_message "secret"
             Sample.carol 100 in
  r.1.1 = Ok tt
  /\ (Manager.recipients <$> r.1.2) = [["carol@example.com"]]
  /\ (Manager.html_token <$> r.1.2) = ["3"].
Proof. vm_compute. by split_and!. Qed.

(** An address the validation refuses: nothing is sent, and the hook
    returns all the same. *)
Example on_after_register_refused :
  let r := Manager.on_after_register Fixtures.jwt_encode Fixtures.UUID_str
             (fun _ => Raise (ValueError "value is not a valid email address"))
             Fixtures.send_message "secret" Sample.carol 100 in
  r = (Ok tt, [], []).
Proof. vm_compute. reflexivity. Qed.

(** The token mailed at registration opens the account: if the decoder
    gives back the subject that was signed, redeeming that token for the
    still unverified user renders the success page for the user's
    address, sets [is_verified] on that row and writes once. *)
Theorem register_then_verify
    (jwt_encode : gmap string App.json -> string -> string)
    (jwt_decode : string -> string -> string -> Z -> Result (gmap string App.json))
    (UUID_str : UUID -> string) (UUID_parse : string -> option UUID)
    (JWT_SECRET : string) (user : User) (now now' : Z)
    (users : gmap UUID User) (payload : gmap string App.json) :
  jwt_decode (Manager.verification_token jwt_encode UUID_str JWT_SECRET user now)
    JWT_SECRET "fastapi-users:verify" now' = Ok payload ->
  payload !! "sub" = Manager.token_data UUID_str user now !! "sub" ->
  UUID_parse (UUID_str (id user)) = Some (id user) ->
  UUID_str (id user) <> "" ->
  users !! id user = Some user ->
  is_verified user = false ->
  App.verify_email_get jwt_decode UUID_parse JWT_SECRET
    (Manager.verification_token jwt_encode UUID_str JWT_SECRET user now)
    now' users
  = (App.EmailVerified (email user),
     <[id user := App.set_is_verified user true]> users,
     [App.UpdateIsVerified (id user) true]).
Proof.
  intros Hd Hsub Hrt Hne Hu Hver.
  rewrite (verify_known_user jwt_decode UUID_parse JWT_SECRET _ now' users
             payload (id user) user Hd).
  - by rewrite Hver.
  - exists (UUID_str (id user)). split_and!; try done.
Qed.

Lemma register_then_verify_witness :
  let token := Manager.verification_token Fixtures.jwt_encode Fixtures.UUID_str
                 "secret" Sample.carol 100 in
  token = "3"
  /\ App.verify_email_get Sample.jwt_decode Sample.UUID_parse "secret" token
       200 Sample.users
     = (App.EmailVerified "carol@example.com",
        <[3%N := App.set_is_verified Sample.carol true]> Sample.users,
        [App.UpdateIsVerified 3%N true]).
Proof.
  intros token. split; [vm_compute; reflexivity|].
  apply (register_then_verify Fixtures.jwt_encode Sample.jwt_decode
           Fixtures.UUID_str Sample.UUID_parse "secret" Sample.carol 100 200
           Sample.users {[ "sub" := App.JStr "3" ]}).
  - vm_compute. reflexivity.
  - vm_compute. reflexivity.
  - vm_compute. reflexivity.
  - discriminate.
  - vm_compute. reflexivity.
  - reflexivity.
Defined.

(** ** admin.py *)

(** The detail view of a post's content never shows more than 103
    characters (code points): content of at most 100 characters (and
    missing or empty content) is shown as it is, longer content is cut to
    its first 100 characters followed by three dots. *)
Theorem content_details_bounded (content : option (list AdminViews.codepoint)) :
  match AdminViews.content_details content with
  | None => content = None
  | Some shown =>
      exists s,
        content = Some s
        /\ (length shown <= 103)%nat
        /\ ((length s <= 100)%nat -> shown = s)
        /\ ((100 < length s)%nat ->
              shown = (take 100 s ++ AdminViews.dots)%list
              /\ length shown = 103%nat
              /\ take 100 s `prefix_of` s
              /\ length (take 100 s) = 100%nat)
  end.
Proof.
  unfold AdminViews.content_details. destruct content as [s|]; [|done].
  destruct (Nat.ltb_spec 100 (length s)) as [Hlt|Hle].
  - assert (Ht : AdminViews.nonempty s = true).
    { destruct s; [simpl in Hlt; lia | done]. }
    rewrite Ht. cbn [andb]. exists s.
    assert (Hl : length (take 100 s) = 100%nat)
      by (rewrite length_take; lia).
    assert (Hs : length (take 100 s ++ AdminViews.dots)%list = 103%nat).
    { rewrite length_app, Hl. reflexivity. }
    split_and!; [done | lia | lia | ].
    intros _. split_and!; [done | done | apply prefix_take | done].
  - rewrite andb_false_r. exists s. split_and!; [done | lia | done | lia].
Qed.

(** Sixty two-byte characters are sixty characters: shown unchanged. *)
Example content_details_sixty_accented :
  let s := replicate 60 233%N in
  AdminViews.content_details (Some s) = Some s.
Proof. vm_compute. reflexivity. Qed.
